(** * Custom LLM server (Node.js / Express sample): a shallow embedding

    The development models [node/custom_llm/custom_llm.js]: the three
    streaming completion endpoints, their helpers ([refactMessages],
    [performRagRetrieval], [readTextFile], [readPCMFile]) and the parts of
    the JavaScript run time they rely on (truthiness, destructuring
    defaults, [JSON.stringify], spread, [Buffer.slice], base64, the Express
    response object).

    Conventions.
    - [req.body] is the object [express.json()] parsed, an association
      list in property order.
    - A JavaScript string is a Rocq [string] holding its UTF-8 bytes; a
      file read as ['utf8'] is the string of its bytes. Spreading a string
      goes by byte, which is by character for ASCII.
    - A JavaScript Number is an integer [Z] inside JSON values. The chunk
      size is computed on IEEE 754 doubles, rounding included, and its
      [Math.floor] is an integer, an infinity or [NaN]. The number
      [Math.random] returns is a rational and its products with 3 and 256
      are exact: on doubles the product with 256 is exact as well, and the
      product with 3 can round up to the next integer for a draw within
      one unit in the last place of 1/3 or 2/3, which changes the phrase
      that is picked and not that it is one of the three.
    - A file is shorter than 2^53 bytes, so that the offsets of the
      chunking loop are exact doubles.
    - Collaborators outside the file (the OpenAI client, the file system,
      [Math.random], [randomUUID]) are oracles of an environment. An
      upstream stream is finite.
    - A handler is a state-passing function over the response and a trace
      of what it did to the outside; [throw] keeps the state, as a write
      that happened before an exception stays written. *)

From Stdlib Require Import List String Ascii Bool ZArith NArith QArith Qround Lia.
From Stdlib Require Import Strings.Byte DecimalString.
From Stdlib Require Import Floats.PrimFloat Floats.FloatOps Floats.SpecFloat.
Import ListNotations.

#[local] Set Warnings "-register-all".
Local Open Scope list_scope.
Local Open Scope string_scope.

(** ** JavaScript values *)

Module JS.

(** Values that travel through the handlers: parsed JSON, plus [undefined]
    for a missing property. An object keeps its properties in insertion
    order, which is the order [JSON.stringify] prints them in. *)
Inductive value : Type :=
| VUndefined
| VNull
| VBool (b : bool)
| VNum (n : Z)
| VStr (s : string)
| VArr (items : list value)
| VObj (fields : list (string * value)).

(** What [throw] carries: [error.message] and [error.stack]. *)
Record js_error : Type := mk_error { message : string; stack : option string }.

(** ToBoolean. *)
Definition truthy (v : value) : bool :=
  match v with
  | VUndefined | VNull => false
  | VBool b => b
  | VNum n => negb (n =? 0)%Z
  | VStr s => negb (s =? "")%string
  | VArr _ | VObj _ => true
  end.

(** [o.k] on a plain object: the property, or [undefined]. *)
Fixpoint prop (o : list (string * value)) (k : string) : value :=
  match o with
  | [] => VUndefined
  | (k', v) :: rest => if (k' =? k)%string then v else prop rest k
  end.

(** [const { k = d } = o]: the default applies to [undefined] only. *)
Definition with_default (v d : value) : value :=
  match v with
  | VUndefined => d
  | _ => v
  end.

(** [c ? a : b]. *)
Definition cond (c a b : value) : value := if truthy c then a else b.

(** [a && b]. *)
Definition and_ (a b : value) : value := if truthy a then b else a.

(** Characters that string literals of this file cannot spell. *)
Definition dquote : ascii := ascii_of_nat 34.
Definition backslash : ascii := ascii_of_nat 92.
Definition nl : string := String (ascii_of_nat 10) "".

Definition hex_digit (n : nat) : ascii :=
  nth n (list_ascii_of_string "0123456789abcdef") "0"%char.

(** QuoteJSONString, one character. *)
Definition escape_char (c : ascii) : string :=
  let n := nat_of_ascii c in
  if (n =? 34)%nat then String backslash (String dquote "")
  else if (n =? 92)%nat then String backslash (String backslash "")
  else if (n =? 8)%nat then String backslash "b"
  else if (n =? 12)%nat then String backslash "f"
  else if (n =? 10)%nat then String backslash "n"
  else if (n =? 13)%nat then String backslash "r"
  else if (n =? 9)%nat then String backslash "t"
  else if (n <? 32)%nat then
    String backslash ("u00" ++ String (hex_digit (n / 16)) (String (hex_digit (n mod 16)) ""))
  else String c "".

Fixpoint escape (s : string) : string :=
  match s with
  | EmptyString => ""
  | String c rest => escape_char c ++ escape rest
  end.

Definition quote (s : string) : string :=
  String dquote (escape s ++ String dquote "").

Definition number_to_string (n : Z) : string := NilZero.string_of_int (Z.to_int n).

(** [JSON.stringify]: [None] is the [undefined] it returns for [undefined].
    Inside an array [undefined] prints as [null]; inside an object the
    property is left out. *)
Fixpoint JSON_stringify (v : value) : option string :=
  match v with
  | VUndefined => None
  | VNull => Some "null"
  | VBool b => Some (if b then "true" else "false")
  | VNum n => Some (number_to_string n)
  | VStr s => Some (quote s)
  | VArr items =>
      Some ("[" ++ String.concat ","
              (map (fun x => match JSON_stringify x with
                             | Some s => s
                             | None => "null"
                             end) items) ++ "]")
  | VObj fields =>
      Some ("{" ++ String.concat ","
              ((fix members (fs : list (string * value)) : list string :=
                  match fs with
                  | [] => []
                  | (k, x) :: rest =>
                      match JSON_stringify x with
                      | Some s => (quote k ++ ":" ++ s) :: members rest
                      | None => members rest
                      end
                  end) fields) ++ "}")
  end.

(** A template literal prints [undefined] by name. *)
Definition interp (o : option string) : string :=
  match o with
  | Some s => s
  | None => "undefined"
  end.

(** [arr[i]] for a number [i]. *)
Definition index (arr : list string) (i : Z) : value :=
  if (i <? 0)%Z then VUndefined
  else match nth_error arr (Z.to_nat i) with
       | Some s => VStr s
       | None => VUndefined
       end.

End JS.
Import JS.

(** ** Buffers and base64 *)

Module Buffer.

Definition t : Type := list byte.

(** [buf.slice(start, end)]: negative offsets count from the end, both
    offsets are clamped to the buffer. *)
Definition slice (b : t) (start end_ : Z) : t :=
  let len := Z.of_nat (List.length b) in
  let clamp x := if (x <? 0)%Z then Z.max (len + x) 0 else Z.min x len in
  let s := clamp start in
  let e := clamp end_ in
  if (e <=? s)%Z then [] else firstn (Z.to_nat (e - s)) (skipn (Z.to_nat s) b).

(** ToUint8, as [Buffer.from(array)] applies it to each number. *)
Definition uint8 (z : Z) : byte :=
  match Byte.of_N (Z.to_N (z mod 256)) with
  | Some b => b
  | None => x00
  end.

Definition from (numbers : list Z) : t := map uint8 numbers.

Definition alphabet : list ascii :=
  list_ascii_of_string "ABCDEFGHIJKLMNOPQRSTUVWXYZabcdefghijklmnopqrstuvwxyz0123456789+/".

Definition sextet_char (n : N) : ascii := nth (N.to_nat n) alphabet "="%char.

(** [buf.toString('base64')]: three bytes give four characters; a tail of
    one or two bytes is padded with [=]. *)
Fixpoint toString_base64 (b : t) : string :=
  match b with
  | [] => ""
  | [x] =>
      let n := (Byte.to_N x * 65536)%N in
      String (sextet_char (n / 262144))
        (String (sextet_char ((n / 4096) mod 64)) "==")
  | [x; y] =>
      let n := (Byte.to_N x * 65536 + Byte.to_N y * 256)%N in
      String (sextet_char (n / 262144))
        (String (sextet_char ((n / 4096) mod 64))
           (String (sextet_char ((n / 64) mod 64)) "="))
  | x :: y :: z :: rest =>
      let n := (Byte.to_N x * 65536 + Byte.to_N y * 256 + Byte.to_N z)%N in
      String (sextet_char (n / 262144))
        (String (sextet_char ((n / 4096) mod 64))
           (String (sextet_char ((n / 64) mod 64))
              (String (sextet_char (n mod 64)) (toString_base64 rest))))
  end.

End Buffer.

(** RFC 4648 decoding, the reader's side of [toString('base64')]. The
    source only encodes; this function says what it means for a payload
    to decode to a byte range. *)
Module Base64.

Fixpoint find_index (c : ascii) (l : list ascii) (i : N) : option N :=
  match l with
  | [] => None
  | x :: rest => if Ascii.eqb x c then Some i else find_index c rest (N.succ i)
  end.

Definition char_sextet (c : ascii) : option N := find_index c Buffer.alphabet 0%N.

Definition byte_of (n : N) : option byte := Byte.of_N n.

Definition is_pad (c : ascii) : bool := Ascii.eqb c "="%char.

Definition quad (c1 c2 c3 c4 : ascii) : option N :=
  match char_sextet c1, char_sextet c2, char_sextet c3, char_sextet c4 with
  | Some s1, Some s2, Some s3, Some s4 =>
      Some (s1 * 262144 + s2 * 4096 + s3 * 64 + s4)%N
  | _, _, _, _ => None
  end.

Definition bytes3 (n : N) : option (list byte) :=
  match byte_of (n / 65536), byte_of ((n / 256) mod 256), byte_of (n mod 256) with
  | Some x, Some y, Some z => Some [x; y; z]
  | _, _, _ => None
  end.

Fixpoint decode (s : string) : option (list byte) :=
  match s with
  | EmptyString => Some []
  | String c1 (String c2 (String c3 (String c4 rest))) =>
      if is_pad c4 then
        match rest with
        | EmptyString =>
            if is_pad c3 then
              match quad c1 c2 "A" "A" with
              | Some n => option_map (firstn 1) (bytes3 n)
              | None => None
              end
            else
              match quad c1 c2 c3 "A" with
              | Some n => option_map (firstn 2) (bytes3 n)
              | None => None
              end
        | String _ _ => None
        end
      else
        match quad c1 c2 c3 c4, decode rest with
        | Some n, Some tail =>
            match bytes3 n with
            | Some l => Some (l ++ tail)%list
            | None => None
            end
        | _, _ => None
        end
  | String _ _ => None
  end.

End Base64.

(** ** The Express response and the world around a handler *)

Module Express.

(** [res]: the part of [http.ServerResponse] the handlers touch. [body]
    lists the strings handed to the socket, oldest first. *)
Record response : Type := mk_response {
  statusCode : Z;
  headers : list (string * string);
  headersSent : bool;
  body : list string;
  finished : bool
}.

Definition fresh : response :=
  {| statusCode := 200; headers := []; headersSent := false;
     body := []; finished := false |}.

Fixpoint get_header (hs : list (string * string)) (k : string) : option string :=
  match hs with
  | [] => None
  | (k', v) :: rest => if (k' =? k)%string then Some v else get_header rest k
  end.

Fixpoint put_header (hs : list (string * string)) (k v : string) : list (string * string) :=
  match hs with
  | [] => [(k, v)]
  | (k', v') :: rest =>
      if (k' =? k)%string then (k, v) :: rest else (k', v') :: put_header rest k v
  end.

End Express.
Import Express.

(** What one call of [openai.chat.completions.create] does: the promise
    rejects, or it resolves to a stream that yields [chunks] and then ends
    ([None]) or throws ([Some e]). *)
Inductive upstream : Type :=
| Rejects (e : js_error)
| Yields (chunks : list value) (failure : option js_error).

(** Everything a handler does to the outside, in program order. *)
Inductive event : Type :=
| EvLog (line : string)
| EvLogError (line : string) (e : js_error)
| EvSetHeader (k v : string)
| EvStatus (code : Z)
| EvJson (payload : string)
| EvWrite (chunk : string)
| EvEnd
| EvRetrieval (messages : value)
| EvCreate (params : value)
| EvReadFile (path : string)
| EvTimeout (ms : Z).

(** The collaborators: the upstream client, the file system, and the two
    sources of randomness, each read by a counter. *)
Record env : Type := mk_env {
  openai_create : value -> upstream;
  fs_readFile : string -> js_error + list byte;
  Math_random : nat -> Q;
  crypto_randomUUID : nat -> string
}.

Record state : Type := mk_state {
  res : response;
  trace : list event;
  randoms : nat;
  uuids : nat
}.

Definition initial : state :=
  {| res := fresh; trace := []; randoms := 0; uuids := 0 |}.

(** How a statement ends: normally, by [throw], or not at all. *)
Inductive result (A : Type) : Type :=
| Normal (a : A)
| Throw (e : js_error)
| Diverge.
Arguments Normal {A} a.
Arguments Throw {A} e.
Arguments Diverge {A}.

(** Statements: state passing; a [throw] keeps what was already written. *)
Definition M (A : Type) : Type := state -> result A * state.

Definition ret {A} (a : A) : M A := fun s => (Normal a, s).

Definition bind {A B} (m : M A) (k : A -> M B) : M B :=
  fun s =>
    match m s with
    | (Normal a, s') => k a s'
    | (Throw e, s') => (Throw e, s')
    | (Diverge, s') => (Diverge, s')
    end.

Definition throw {A} (e : js_error) : M A := fun s => (Throw e, s).

(** [try { body } catch (error) { handler }]. *)
Definition try_catch {A} (body : M A) (handler : js_error -> M A) : M A :=
  fun s =>
    match body s with
    | (Throw e, s') => handler e s'
    | r => r
    end.

Definition lift {A} (r : result A) : M A := fun s => (r, s).

Declare Scope js_scope.
Delimit Scope js_scope with js.
Notation "x <- m ;; k" := (bind m (fun x => k))
  (at level 61, m at next level, right associativity) : js_scope.
Notation "m ;; k" := (bind m (fun _ => k))
  (at level 61, right associativity) : js_scope.
Local Open Scope js_scope.

Definition emit (e : event) : M unit :=
  fun s => (Normal tt, {| res := res s; trace := (trace s ++ [e])%list;
                          randoms := randoms s; uuids := uuids s |}).

Definition update_res (f : response -> response) : M unit :=
  fun s => (Normal tt, {| res := f (res s); trace := trace s;
                          randoms := randoms s; uuids := uuids s |}).

Definition get_res : M response := fun s => (Normal (res s), s).

(** [for (const x of xs) body]. *)
Fixpoint for_of {A} (xs : list A) (body : A -> M unit) : M unit :=
  match xs with
  | [] => ret tt
  | x :: rest => body x ;; for_of rest body
  end.

(** [for await (const chunk of completion) body]: the stream's own
    failure is thrown where the next chunk would have been. *)
Fixpoint for_await (chunks : list value) (failure : option js_error)
    (body : value -> M unit) : M unit :=
  match chunks with
  | [] => match failure with
          | None => ret tt
          | Some e => throw e
          end
  | c :: rest => body c ;; for_await rest failure body
  end.

(** [Array(n).fill(0).map(() => f())]. *)
Fixpoint fill_map {A} (n : nat) (f : M A) : M (list A) :=
  match n with
  | O => ret []
  | S n' => x <- f ;; xs <- fill_map n' f ;; ret (x :: xs)
  end.

(** ** The program *)

Section Handlers.

Variable E : env.

(** *** [logger] *)

Definition logger_info (msg : string) : M unit := emit (EvLog ("INFO: " ++ msg)).
Definition logger_debug (msg : string) : M unit := emit (EvLog ("DEBUG: " ++ msg)).
Definition logger_error (msg : string) (error : js_error) : M unit :=
  emit (EvLogError ("ERROR: " ++ msg) error).

(** *** [res] *)

Definition ERR_HTTP_HEADERS_SENT : js_error :=
  {| message := "Cannot set headers after they are sent to the client"; stack := None |}.

Definition res_setHeader (k v : string) : M unit :=
  emit (EvSetHeader k v) ;;
  r <- get_res ;;
  if headersSent r then throw ERR_HTTP_HEADERS_SENT
  else update_res (fun r =>
         {| statusCode := statusCode r; headers := put_header (headers r) k v;
            headersSent := headersSent r; body := body r; finished := finished r |}).

Definition res_status (code : Z) : M unit :=
  emit (EvStatus code) ;;
  update_res (fun r =>
    {| statusCode := code; headers := headers r;
       headersSent := headersSent r; body := body r; finished := finished r |}).

(** [res.json(obj)]: the JSON text is the whole body and the response is
    over. Express keeps a [Content-Type] that is already set (the charset
    parameter it appends is left out). *)
Definition res_json (obj : value) : M unit :=
  let payload := interp (JSON_stringify obj) in
  emit (EvJson payload) ;;
  r <- get_res ;;
  if headersSent r then throw ERR_HTTP_HEADERS_SENT
  else update_res (fun r =>
         {| statusCode := statusCode r;
            headers := match get_header (headers r) "Content-Type" with
                       | Some _ => headers r
                       | None => put_header (headers r) "Content-Type" "application/json"
                       end;
            headersSent := true; body := (body r ++ [payload])%list; finished := true |}).

(** [res.write(chunk)]: the first write sends the status line and the
    headers; a write after [end] is dropped. *)
Definition res_write (chunk : string) : M unit :=
  emit (EvWrite chunk) ;;
  update_res (fun r =>
    if finished r then r
    else {| statusCode := statusCode r; headers := headers r;
            headersSent := true; body := (body r ++ [chunk])%list; finished := false |}).

Definition res_end : M unit :=
  emit EvEnd ;;
  update_res (fun r =>
    {| statusCode := statusCode r; headers := headers r;
       headersSent := true; body := body r; finished := true |}).

Definition res_headersSent : M bool := r <- get_res ;; ret (headersSent r).

(** *** Randomness and time *)

Definition Math_random_next : M Q :=
  fun s => (Normal (Math_random E (randoms s)),
            {| res := res s; trace := trace s; randoms := S (randoms s); uuids := uuids s |}).

Definition randomUUID : M string :=
  fun s => (Normal (crypto_randomUUID E (uuids s)),
            {| res := res s; trace := trace s; randoms := randoms s; uuids := S (uuids s) |}).

Definition Math_floor (x : Q) : Z := Qfloor x.

(** [Math.floor] of a double. The floor of a finite double is an integer
    that is a double again; an infinity and [NaN] are returned as they
    are. *)
Inductive floored : Type :=
  | Whole (z : Z)
  | Infinity (negative : bool)
  | NaN.

Definition Math_floor_double (x : float) : floored :=
  match Prim2SF x with
  | S754_zero _ => Whole 0
  | S754_infinity negative => Infinity negative
  | S754_nan => NaN
  | S754_finite negative m e =>
      let n := if negative then Z.neg m else Z.pos m in
      Whole (if (0 <=? e)%Z then n * 2 ^ e else n / 2 ^ (- e))%Z
  end.

(** [await new Promise((resolve) => setTimeout(resolve, ms))]. *)
Definition sleep (ms : Z) : M unit := emit (EvTimeout ms).

(** *** The upstream client *)

Definition openai_chat_completions_create (params : value)
  : M (list value * option js_error) :=
  emit (EvCreate params) ;;
  match openai_create E params with
  | Rejects e => throw e
  | Yields chunks failure => ret (chunks, failure)
  end.

(** The template literal of every event: [data: ${payload}\n\n]. *)
Definition sse (payload : string) : string := "data: " ++ payload ++ nl ++ nl.

(** The three handlers start alike: the destructuring of [req.body] and
    the two validation answers. *)
Definition reject (detail : string) : M unit :=
  res_status 400 ;; res_json (VObj [("detail", VStr detail)]).

Definition set_sse_headers : M unit :=
  res_setHeader "Content-Type" "text/event-stream" ;;
  res_setHeader "Cache-Control" "no-cache" ;;
  res_setHeader "Connection" "keep-alive".

(** The [catch] block the three handlers share. *)
Definition on_error (label : string) (error : js_error) : M unit :=
  logger_error label error ;;
  sent <- res_headersSent ;;
  if negb sent then
    let errorDetail :=
      message error ++ nl ++ match stack error with
                             | Some st => st
                             | None => ""
                             end in
    res_status 500 ;; res_json (VObj [("detail", VStr errorDetail)])
  else
    res_write (sse (interp (JSON_stringify (VObj [("error", VStr (message error))])))) ;;
    res_write (sse "[DONE]") ;;
    res_end.

(** The argument of [openai.chat.completions.create]. *)
Definition create_params (model messages tools tool_choice response_format : value) : value :=
  VObj [("model", model);
        ("messages", messages);
        ("tools", cond tools tools VUndefined);
        ("tool_choice", cond (and_ tools tool_choice) tool_choice VUndefined);
        ("response_format", response_format);
        ("stream", VBool true)].

(** [for await (const chunk of completion) { ... res.write(...) }]. *)
Definition relay (label : string) (completion : list value * option js_error) : M unit :=
  for_await (fst completion) (snd completion) (fun chunk =>
    logger_debug (label ++ interp (JSON_stringify chunk)) ;;
    res_write (sse (interp (JSON_stringify chunk)))).

(** *** [POST /chat/completions] *)

Definition chat_completions (req_body : list (string * value)) : M unit :=
  try_catch
    (logger_info ("Received request: " ++ interp (JSON_stringify (VObj req_body))) ;;
     let model := with_default (prop req_body "model") (VStr "gpt-4o-mini") in
     let messages := prop req_body "messages" in
     let tools := prop req_body "tools" in
     let tool_choice := prop req_body "tool_choice" in
     let response_format := prop req_body "response_format" in
     let stream := with_default (prop req_body "stream") (VBool true) in
     if negb (truthy messages) then reject "Missing messages in request body"
     else if negb (truthy stream) then reject "chat completions require streaming"
     else
       set_sse_headers ;;
       completion <- openai_chat_completions_create
                       (create_params model messages tools tool_choice response_format) ;;
       relay "Received chunk: " completion ;;
       res_write (sse "[DONE]") ;;
       res_end)
    (on_error "Chat completion error:").

(** *** Retrieval *)

Definition performRagRetrieval (messages : value) : M string :=
  emit (EvRetrieval messages) ;;
  ret "This is relevant content retrieved from the knowledge base.".

Definition not_iterable : js_error :=
  {| message := "messages is not iterable"; stack := None |}.

(** [...messages]: an array gives its elements, a string its characters,
    anything else is not iterable. *)
Definition spread (messages : value) : result (list value) :=
  match messages with
  | VArr items => Normal items
  | VStr s => Normal (map (fun c => VStr (String c "")) (list_ascii_of_string s))
  | _ => Throw not_iterable
  end.

Definition refactMessages (context : string) (messages : value) : result value :=
  match spread messages with
  | Normal items =>
      Normal (VArr (VObj [("role", VStr "system");
                          ("content", VStr ("You have access to the following knowledge: "
                                            ++ context ++ ". Answer questions using this data."))]
                    :: items))
  | Throw e => Throw e
  | Diverge => Diverge
  end.

Definition waitingMessages : list string :=
  ["Just a moment, I'm thinking...";
   "Let me think about that for a second...";
   "Good question, let me find out..."].

Definition waitingMessage (content : value) : value :=
  VObj [("id", VStr "waiting_msg");
        ("choices",
         VArr [VObj [("index", VNum 0);
                     ("delta", VObj [("role", VStr "assistant"); ("content", content)]);
                     ("finish_reason", VNull)]])].

(** *** [POST /rag/chat/completions] *)

Definition rag_chat_completions (req_body : list (string * value)) : M unit :=
  try_catch
    (logger_info ("Received RAG request: " ++ interp (JSON_stringify (VObj req_body))) ;;
     let model := with_default (prop req_body "model") (VStr "gpt-4") in
     let messages := prop req_body "messages" in
     let tools := prop req_body "tools" in
     let tool_choice := prop req_body "tool_choice" in
     let response_format := prop req_body "response_format" in
     let stream := with_default (prop req_body "stream") (VBool true) in
     if negb (truthy messages) then reject "Missing messages in request body"
     else if negb (truthy stream) then reject "chat completions require streaming"
     else
       set_sse_headers ;;
       r <- Math_random_next ;;
       let waiting :=
         waitingMessage
           (index waitingMessages
              (Math_floor (r * inject_Z (Z.of_nat (List.length waitingMessages))))) in
       res_write (sse (interp (JSON_stringify waiting))) ;;
       retrievedContext <- performRagRetrieval messages ;;
       ragMessages <- lift (refactMessages retrievedContext messages) ;;
       completion <- openai_chat_completions_create
                       (create_params model ragMessages tools tool_choice response_format) ;;
       relay "Received RAG chunk: " completion ;;
       res_write (sse "[DONE]") ;;
       res_end)
    (on_error "RAG chat completion error:").

(** *** Files *)

Definition fs_readFile_bytes (filePath : string) : M Buffer.t :=
  emit (EvReadFile filePath) ;;
  match fs_readFile E filePath with
  | inl e => throw e
  | inr content => ret content
  end.

Definition readTextFile (filePath : string) : M string :=
  try_catch
    (content <- fs_readFile_bytes filePath ;;
     ret (string_of_list_byte content))
    (fun error =>
       logger_error ("Failed to read text file: " ++ filePath) error ;;
       throw error).

(** [for (let i = 0; i < content.length; i += chunkSize) chunks.push(...)].
    The loop need not end, so it runs on fuel; [Diverge] is the run that
    used it all up. *)
Fixpoint readPCMFile_loop (fuel : nat) (content : Buffer.t) (chunkSize i : Z)
    (chunks : list Buffer.t) : result (list Buffer.t) :=
  match fuel with
  | O => Diverge
  | S fuel' =>
      if (i <? Z.of_nat (List.length content))%Z then
        readPCMFile_loop fuel' content chunkSize (i + chunkSize)
          (chunks ++ [Buffer.slice content i (i + chunkSize)])%list
      else Normal chunks
  end.

(** [Math.floor(sampleRate * 2 * (durationMs / 1000))], on doubles. *)
Definition chunk_size (sampleRate durationMs : float) : floored :=
  Math_floor_double (sampleRate * 2 * (durationMs / 1000))%float.

(** The loop for the chunk size that was computed. An integer chunk size
    runs the loop above: the offsets are integers below 2^53 as long as
    they are below the length of the file, so their sums are exact. A
    chunk size that is not finite ends or blocks the loop at its second
    test: [slice(0, NaN)] is empty and [NaN < content.length] is false;
    [slice(0, Infinity)] is the whole file and [Infinity < content.length]
    is false; [slice(0, -Infinity)] is empty and [-Infinity] stays below
    the length. *)
Definition readPCMFile_chunks (fuel : nat) (content : Buffer.t) (chunkSize : floored)
  : result (list Buffer.t) :=
  match chunkSize with
  | Whole c => readPCMFile_loop fuel content c 0 []
  | NaN =>
      match fuel, content with
      | O, _ => Diverge
      | _, [] => Normal []
      | _, _ :: _ => Normal [[]]
      end
  | Infinity negative =>
      match fuel, content with
      | O, _ => Diverge
      | _, [] => Normal []
      | _, _ :: _ => if negative then Diverge else Normal [content]
      end
  end.

Definition readPCMFile (fuel : nat) (filePath : string) (sampleRate durationMs : float)
  : M (list Buffer.t) :=
  try_catch
    (content <- fs_readFile_bytes filePath ;;
     let chunkSize := chunk_size sampleRate durationMs in
     lift (readPCMFile_chunks fuel content chunkSize))
    (fun error =>
       logger_error ("Failed to read PCM file: " ++ filePath) error ;;
       throw error).

(** *** [POST /audio/chat/completions] *)

Definition textMessage (id audioId transcript : string) : value :=
  VObj [("id", VStr id);
        ("choices",
         VArr [VObj [("index", VNum 0);
                     ("delta", VObj [("audio", VObj [("id", VStr audioId);
                                                     ("transcript", VStr transcript)])]);
                     ("finish_reason", VNull)]])].

Definition audioMessage (id audioId data : string) : value :=
  VObj [("id", VStr id);
        ("choices",
         VArr [VObj [("index", VNum 0);
                     ("delta", VObj [("audio", VObj [("id", VStr audioId);
                                                     ("data", VStr data)])]);
                     ("finish_reason", VNull)]])].

Definition simulatedTranscript : string :=
  "This is a simulated audio response because actual audio files weren't found.".

Definition send_audio (audioId : string) (chunk : Buffer.t) : M unit :=
  id <- randomUUID ;;
  res_write (sse (interp (JSON_stringify
                            (audioMessage id audioId (Buffer.toString_base64 chunk))))) ;;
  sleep 100.

(** The body of the fallback loop: 40 random bytes, sent like a chunk of
    the asset. *)
Definition send_simulated (audioId : string) (i : nat) : M unit :=
  numbers <- fill_map 40 (r <- Math_random_next ;; ret (Math_floor (r * 256))) ;;
  let randomData := Buffer.from numbers in
  send_audio audioId randomData.

Definition audio_chat_completions (fuel : nat) (req_body : list (string * value)) : M unit :=
  try_catch
    (logger_info ("Received audio request: " ++ interp (JSON_stringify (VObj req_body))) ;;
     let messages := prop req_body "messages" in
     let stream := with_default (prop req_body "stream") (VBool true) in
     if negb (truthy messages) then reject "Missing messages in request body"
     else if negb (truthy stream) then reject "chat completions require streaming"
     else
       set_sse_headers ;;
       let textFilePath := "./file.txt" in
       let pcmFilePath := "./file.pcm" in
       let sampleRate := 16000%float in
       let durationMs := 40%float in
       try_catch
         (textContent <- readTextFile textFilePath ;;
          audioChunks <- readPCMFile fuel pcmFilePath sampleRate durationMs ;;
          audioId <- randomUUID ;;
          id <- randomUUID ;;
          res_write (sse (interp (JSON_stringify (textMessage id audioId textContent)))) ;;
          for_of audioChunks (send_audio audioId))
         (fun error =>
            logger_error "Error reading audio files, using simulated response" error ;;
            audioId <- randomUUID ;;
            id <- randomUUID ;;
            res_write (sse (interp (JSON_stringify
                                      (textMessage id audioId simulatedTranscript)))) ;;
            for_of (seq 0 5) (send_simulated audioId)) ;;
       res_write (sse "[DONE]") ;;
       res_end)
    (on_error "Audio chat completion error:").

End Handlers.

(** The response a handler leaves behind, and what it did on the way. *)
Definition run (h : M unit) : state := snd (h initial).
Definition outcome (h : M unit) : result unit := fst (h initial).

(** ** Vocabulary of the statements *)

(** A request passes validation: [messages] and [stream] (after its
    default) are both truthy. *)
Definition passes_validation (req_body : list (string * value)) : bool :=
  truthy (prop req_body "messages")
  && truthy (with_default (prop req_body "stream") (VBool true)).

Definition sse_headers : list (string * string) :=
  [("Content-Type", "text/event-stream");
   ("Cache-Control", "no-cache");
   ("Connection", "keep-alive")].

(** The events as a client reads them off the wire. One event is the
    field name [data: ], the payload, the line feed that ends the field and
    the line feed that ends the event. *)
Definition line_feed : string := String "010"%char "".

Definition data_event (chunk : value) : string :=
  "data: " ++ interp (JSON_stringify chunk) ++ line_feed ++ line_feed.

Definition done_event : string := "data: [DONE]" ++ line_feed ++ line_feed.

Definition error_event (e : js_error) : string :=
  data_event (VObj [("error", VStr (message e))]).

(** The body of an HTTP 400 answer. *)
Definition detail_body (detail : string) : string :=
  interp (JSON_stringify (VObj [("detail", VStr detail)])).

(** An event of the trace that belongs to an SSE answer. *)
Definition is_sse_event (e : event) : bool :=
  match e with
  | EvSetHeader _ _ | EvWrite _ => true
  | _ => false
  end.

(** The upstream request of [/chat/completions] for a body. *)
Definition chat_params (req_body : list (string * value)) : value :=
  create_params (with_default (prop req_body "model") (VStr "gpt-4o-mini"))
    (prop req_body "messages") (prop req_body "tools") (prop req_body "tool_choice")
    (prop req_body "response_format").

(** The answer of a handler that rejected the request with [detail]: HTTP
    400, a JSON body, no SSE header and no SSE event. *)
Definition rejected (detail : string) (s : state) : Prop :=
  res s = {| statusCode := 400; headers := [("Content-Type", "application/json")];
             headersSent := true; body := [detail_body detail]; finished := true |}
  /\ forallb (fun e => negb (is_sse_event e)) (trace s) = true.

(** The response after some more writes to an answer that is not over. *)
Definition written (r : response) (chunks : list string) : response :=
  {| statusCode := statusCode r; headers := headers r;
     headersSent := headersSent r || match chunks with [] => false | _ :: _ => true end;
     body := (body r ++ chunks)%list; finished := finished r |}.

(** What relaying [chunks] adds to the trace. *)
Definition relay_trace (label : string) (chunks : list value) : list event :=
  flat_map (fun c => [EvLog ("DEBUG: " ++ label ++ interp (JSON_stringify c));
                      EvWrite (data_event c)]) chunks.

(** A completed SSE answer with the given events. *)
Definition streamed (events : list string) : response :=
  {| statusCode := 200; headers := sse_headers; headersSent := true;
     body := events; finished := true |}.

Definition sse_header_events : list event :=
  [EvSetHeader "Content-Type" "text/event-stream";
   EvSetHeader "Cache-Control" "no-cache";
   EvSetHeader "Connection" "keep-alive"].

(** [errorDetail] of the [catch] block. *)
Definition errorDetail (e : js_error) : string :=
  message e ++ nl ++ match stack e with Some st => st | None => "" end.

(** The answer to a failure that comes before the first write: HTTP 500
    with a JSON body, under the headers that were already set. *)
Definition failed_before_streaming (e : js_error) : response :=
  {| statusCode := 500; headers := sse_headers; headersSent := true;
     body := [detail_body (errorDetail e)]; finished := true |}.

(** The message [refactMessages] puts in front. *)
Definition system_message (context : string) : value :=
  VObj [("role", VStr "system");
        ("content", VStr ("You have access to the following knowledge: "
                          ++ context ++ ". Answer questions using this data."))].

(** What [performRagRetrieval] returns. *)
Definition retrieved : string :=
  "This is relevant content retrieved from the knowledge base.".

(** The upstream request of [/rag/chat/completions] for a body whose
    messages spread to [items]. *)
Definition rag_params (req_body : list (string * value)) (items : list value) : value :=
  create_params (with_default (prop req_body "model") (VStr "gpt-4"))
    (VArr (system_message retrieved :: items))
    (prop req_body "tools") (prop req_body "tool_choice")
    (prop req_body "response_format").

(** A chunk of a completion stream with a single choice, as a client
    reads it: [{id, choices: [{index: 0, delta, finish_reason: null}]}]. *)
Definition single_choice_chunk (id : string) (delta : value) : value :=
  VObj [("id", VStr id);
        ("choices", VArr [VObj [("index", VNum 0);
                                ("delta", delta);
                                ("finish_reason", VNull)]])].

(** The three deltas the server makes up itself: an assistant turn, the
    transcript of an audio answer, and a piece of its audio in base64. *)
Definition assistant_delta (content : value) : value :=
  VObj [("role", VStr "assistant"); ("content", content)].

Definition transcript_delta (audioId transcript : string) : value :=
  VObj [("audio", VObj [("id", VStr audioId); ("transcript", VStr transcript)])].

Definition audio_delta (audioId data : string) : value :=
  VObj [("audio", VObj [("id", VStr audioId); ("data", VStr data)])].

Definition transcript_event (id audioId transcript : string) : string :=
  data_event (single_choice_chunk id (transcript_delta audioId transcript)).

Definition audio_event (id audioId data : string) : string :=
  data_event (single_choice_chunk id (audio_delta audioId data)).

(** The transcript of an audio answer that is made up. *)
Definition fallback_transcript : string :=
  "This is a simulated audio response because actual audio files weren't found.".

(** The filler phrases of the waiting message. *)
Definition filler_phrases : list string :=
  ["Just a moment, I'm thinking...";
   "Let me think about that for a second...";
   "Good question, let me find out..."].

(** The waiting message of a run: the first draw of [Math.random] picks
    the phrase. *)
Definition waiting_content (E : env) : value :=
  index filler_phrases (Qfloor (Math_random E 0 * 3)).

Definition waiting_event (E : env) : string :=
  data_event (single_choice_chunk "waiting_msg" (assistant_delta (waiting_content E))).

Definition rag_opening (E : env) (req_body : list (string * value)) : list event :=
  (EvLog ("INFO: Received RAG request: " ++ interp (JSON_stringify (VObj req_body)))
   :: sse_header_events
   ++ [EvWrite (waiting_event E); EvRetrieval (prop req_body "messages")])%list.

(** The audio events for [chunks], their ids drawn from [first] on. *)
Fixpoint audio_events (E : env) (audioId : string) (first : nat) (chunks : list Buffer.t)
  : list string :=
  match chunks with
  | [] => []
  | chunk :: rest =>
      audio_event (crypto_randomUUID E first) audioId (Buffer.toString_base64 chunk)
      :: audio_events E audioId (S first) rest
  end.

Definition audio_trace (events : list string) : list event :=
  flat_map (fun ev => [EvWrite ev; EvTimeout 100]) events.

(** [n] numbers [Math.floor(Math.random() * 256)], from draw [first] on. *)
Fixpoint draws (E : env) (first n : nat) : list Z :=
  match n with
  | O => []
  | S n' => Qfloor (Math_random E first * 256) :: draws E (S first) n'
  end.

(** The simulated chunks: 40 random bytes each. *)
Fixpoint fillers (E : env) (first n : nat) : list Buffer.t :=
  match n with
  | O => []
  | S n' => Buffer.from (draws E first 40) :: fillers E (first + 40) n'
  end.

(** A state after more audio events. *)
Definition after_audio (E : env) (audioId : string) (chunks : list Buffer.t)
    (more_randoms : nat) (s : state) : state :=
  {| res := written (res s) (audio_events E audioId (uuids s) chunks);
     trace := (trace s ++ audio_trace (audio_events E audioId (uuids s) chunks))%list;
     randoms := randoms s + more_randoms;
     uuids := uuids s + List.length chunks |}.

(** The bytes of [content] at the offsets [lo], ..., [hi - 1]. *)
Definition byte_range (content : Buffer.t) (lo hi : nat) : Buffer.t :=
  firstn (hi - lo) (skipn lo content).

Definition ceil_div (a b : nat) : nat := (a + b - 1) / b.

(** The chunking the spec describes: [ceil_div S C] ranges of [C] bytes,
    the last one cut at the end of the asset. *)
Definition pcm_range (content : Buffer.t) (C k : nat) : Buffer.t :=
  byte_range content (k * C) (Nat.min ((k + 1) * C) (List.length content)).

Definition pcm_chunks (content : Buffer.t) (C : nat) : list Buffer.t :=
  map (pcm_range content C) (seq 0 (ceil_div (List.length content) C)).

(** ** Sample collaborators and requests *)

Definition sample_chunks : list value :=
  [VObj [("id", VStr "1")]; VObj [("id", VStr "2")]].

Definition ENOENT : js_error :=
  {| message := "ENOENT: no such file or directory"; stack := None |}.

Definition boom : js_error :=
  {| message := "Connection error."; stack := Some "Error: Connection error." |}.

(** An environment with the given upstream and no asset on disk. *)
Definition sample_env (u : upstream) : env :=
  {| openai_create := fun _ => u;
     fs_readFile := fun _ => inl ENOENT;
     Math_random := fun _ => (1 # 2)%Q;
     crypto_randomUUID := fun n => "uuid-" ++ number_to_string (Z.of_nat n) |}.

Definition sample_request : list (string * value) :=
  [("messages", VArr [VObj [("role", VStr "user"); ("content", VStr "hi")]]);
   ("model", VStr "gpt-4o-mini");
   ("stream", VBool true)].

(** An environment with both assets on disk: a transcript and a PCM file
    of 3000 bytes. *)
Definition sample_pcm : Buffer.t := repeat "001"%byte 3000.

Definition sample_audio_env : env :=
  {| openai_create := fun _ => Yields sample_chunks None;
     fs_readFile := fun filePath =>
       if (filePath =? "./file.txt")%string then inr (list_byte_of_string "hello")
       else if (filePath =? "./file.pcm")%string then inr sample_pcm
       else inl ENOENT;
     Math_random := fun _ => (1 # 2)%Q;
     crypto_randomUUID := fun n => "uuid-" ++ number_to_string (Z.of_nat n) |}.

(** A request that leaves [stream] out. *)
Definition request_without_stream : list (string * value) :=
  [("messages", VArr [VObj [("role", VStr "user"); ("content", VStr "hi")]])].

(** A request with an empty [tools] list. *)
Definition request_with_empty_tools : list (string * value) :=
  [("messages", VArr [VObj [("role", VStr "user"); ("content", VStr "hi")]]);
   ("tools", VArr []);
   ("tool_choice", VStr "auto")].

(** An environment whose PCM file is one byte long. *)
Definition one_byte_env : env :=
  {| openai_create := fun _ => Yields [] None;
     fs_readFile := fun _ => inr ["001"%byte];
     Math_random := fun _ => 0%Q;
     crypto_randomUUID := fun _ => "uuid" |}.

(** A retrieval or an upstream call. *)
Definition is_collaborator_call (e : event) : bool :=
  match e with
  | EvRetrieval _ | EvCreate _ => true
  | _ => false
  end.

Definition is_write (e : event) : bool :=
  match e with
  | EvWrite _ | EvJson _ => true
  | _ => false
  end.

(** [v.k] and the elements of [v], for reading a message back. *)
Definition field (v : value) (k : string) : value :=
  match v with
  | VObj fields => prop fields k
  | _ => VUndefined
  end.

Definition elements (v : value) : list value :=
  match v with
  | VArr items => items
  | _ => []
  end.

(** The [audio] object in the delta of a choice. *)
Definition delta_audio (choice : value) : value := field (field choice "delta") "audio".

(** [s ++ t] may start with [c]: [s] does, or [s] is empty. *)
Definition may_start (c : ascii) (s : string) : bool :=
  match s with
  | String c' _ => Ascii.eqb c' c
  | EmptyString => true
  end.

(** The handler went on to the SSE answer: the three headers are set and
    the status is not 400. *)
Definition opens_sse (s : state) : Prop :=
  headers (res s) = sse_headers /\ statusCode (res s) <> 400%Z.

(** ** Vocabulary of the further properties *)

(** The detail the validation answers with. *)
Definition validation_detail (req_body : list (string * value)) : string :=
  if truthy (prop req_body "messages") then "chat completions require streaming"
  else "Missing messages in request body".

(** What [...messages] accepts. *)
Definition is_iterable (v : value) : bool :=
  match v with
  | VArr _ | VStr _ => true
  | _ => false
  end.

Definition is_create (e : event) : bool :=
  match e with
  | EvCreate _ => true
  | _ => false
  end.

Definition is_retrieval (e : event) : bool :=
  match e with
  | EvRetrieval _ => true
  | _ => false
  end.

Definition is_read (e : event) : bool :=
  match e with
  | EvReadFile _ => true
  | _ => false
  end.

(** A [res.write], that is an SSE event. *)
Definition is_res_write (e : event) : bool :=
  match e with
  | EvWrite _ => true
  | _ => false
  end.

(** The upstream calls of a trace, in order. *)
Definition creates (t : list event) : list event := filter is_create t.

(** A line break, which would end an SSE field. *)
Fixpoint has_line_break (s : string) : bool :=
  match s with
  | EmptyString => false
  | String c rest =>
      (nat_of_ascii c =? 10)%nat || (nat_of_ascii c =? 13)%nat || has_line_break rest
  end.

(** How the trace of the audio endpoint starts and ends. *)
Definition audio_opening (req_body : list (string * value)) : list event :=
  EvLog ("INFO: Received audio request: " ++ interp (JSON_stringify (VObj req_body)))
  :: sse_header_events.

Definition audio_closing (events : list string) : list event :=
  (audio_trace events ++ [EvWrite done_event; EvEnd])%list.

(** The members [JSON.stringify] prints for the properties of an object. *)
Fixpoint obj_members (fields : list (string * value)) : list string :=
  match fields with
  | [] => []
  | (k, x) :: rest =>
      match JSON_stringify x with
      | Some s => (quote k ++ ":" ++ s) :: obj_members rest
      | None => obj_members rest
      end
  end.

(** How [JSON.stringify] prints an element of an array. *)
Definition element_text (x : value) : string :=
  match JSON_stringify x with
  | Some s => s
  | None => "null"
  end.

(** A character of base64 text: of the alphabet, or the padding. *)
Definition is_base64_char (c : ascii) : bool :=
  existsb (Ascii.eqb c) Buffer.alphabet || Ascii.eqb c "="%char.

(** One well-formed SSE event: [data: ], a payload on one line, and the
    blank line. *)
Definition framed (ev : string) : Prop :=
  exists payload,
    ev = "data: " ++ payload ++ line_feed ++ line_feed
    /\ has_line_break payload = false.

(** A chunk whose text holds a line feed and a carriage return. *)
Definition chunk_with_line_breaks : value :=
  VObj [("content", VStr ("one" ++ nl ++ "two" ++ String (ascii_of_nat 13) "three"))].

(** A chunk size that does not move the offset forward: zero, a negative
    integer, or [-Infinity]. *)
Definition not_positive (chunkSize : floored) : bool :=
  match chunkSize with
  | Whole c => (c <=? 0)%Z
  | Infinity negative => negative
  | NaN => false
  end.

(** An environment whose PCM asset is empty. *)
Definition empty_pcm_env : env :=
  {| openai_create := fun _ => Yields [] None;
     fs_readFile := fun filePath =>
       if (filePath =? "./file.txt")%string then inr (list_byte_of_string "hello")
       else inr [];
     Math_random := fun _ => 0%Q;
     crypto_randomUUID := fun n => "uuid-" ++ number_to_string (Z.of_nat n) |}.

(** A request whose [messages] is an object, not a list. *)
Definition request_with_object_messages : list (string * value) :=
  [("messages", VObj [("role", VStr "user"); ("content", VStr "hi")])].

(** A request that is falsy in both tested properties. *)
Definition request_with_nulls : list (string * value) :=
  [("messages", VNull); ("stream", VNull)].

(** ** Sanity checks of the run time *)

Example base64_of_Man :
  Buffer.toString_base64 (Buffer.from [77; 97; 110]%Z) = "TWFu"
  /\ Buffer.toString_base64 (Buffer.from [77; 97]%Z) = "TWE="
  /\ Buffer.toString_base64 (Buffer.from [77]%Z) = "TQ=="
  /\ Base64.decode "TWE=" = Some (Buffer.from [77; 97]%Z).
Proof. repeat split; reflexivity. Qed.

Example slice_clamps_its_end :
  Buffer.slice (Buffer.from [1; 2; 3; 4; 5]%Z) 3 10 = Buffer.from [4; 5]%Z
  /\ Buffer.slice (Buffer.from [1; 2; 3; 4; 5]%Z) 0 0 = [].
Proof. split; reflexivity. Qed.

Example stringify_leaves_undefined_out :
  JSON_stringify (VObj [("a", VNum 1); ("b", VUndefined); ("c", VArr [VUndefined; VNull])])
  = Some ("{" ++ quote "a" ++ ":1," ++ quote "c" ++ ":[null,null]}").
Proof. reflexivity. Qed.

Example empty_array_is_truthy :
  truthy (VArr []) = true /\ truthy VNull = false /\ truthy (VStr "") = false
  /\ with_default VNull (VBool true) = VNull.
Proof. repeat split; reflexivity. Qed.

(** The chunk size is computed on doubles, rounding included: 50 Hz and
    570 ms give 56, not the 57 of exact arithmetic, and 1.5 Hz with the
    double nearest to 1000/3 ms gives 1, not 0. *)
Example chunk_size_rounds_like_doubles :
  chunk_size 16000 40 = Whole 1280
  /\ chunk_size 10 40 = Whole 0
  /\ chunk_size 50 570 = Whole 56
  /\ chunk_size 1.5 (1000 / 3) = Whole 1
  /\ chunk_size (-16000) 40 = Whole (-1280)
  /\ chunk_size 16000 (40 / 0) = Infinity false
  /\ chunk_size 0 (40 / 0) = NaN.
Proof. repeat split; vm_compute; reflexivity. Qed.

(** The scenario of the specification: two chunks upstream, three events. *)
Example two_chunks_three_events :
  List.length (body (res (run (chat_completions (sample_env (Yields sample_chunks None))
                                 sample_request)))) = 3%nat.
Proof. reflexivity. Qed.

(** ** Validation *)

#[local] Arguments JSON_stringify : simpl never.
#[local] Arguments String.append : simpl never.
#[local] Arguments relay : simpl never.

(** Symbolic execution: unfold a handler up to its first test, settle the
    test from the context, and only then let the statements run. *)
Ltac settle :=
  repeat match goal with
         | H : truthy ?v = _ |- context [truthy ?v] => rewrite H
         | H : openai_create ?E ?p = _ |- context [openai_create ?E ?p] => rewrite H
         | H : fs_readFile ?E ?p = _ |- context [fs_readFile ?E ?p] => rewrite H
         | H : spread ?v = _ |- context [spread ?v] => rewrite H
         end.

Ltac exec1 :=
  cbv beta iota zeta delta
    [try_catch bind ret throw lift emit update_res get_res
     logger_info logger_debug logger_error set_sse_headers reject on_error
     res_setHeader res_status res_json res_write res_end res_headersSent
     performRagRetrieval sleep Math_random_next randomUUID
     fs_readFile_bytes readTextFile readPCMFile
     fst snd res trace randoms uuids
     statusCode headers headersSent body finished
     negb orb andb put_header get_header String.eqb Ascii.eqb Bool.eqb
     initial fresh written].

Ltac exec :=
  exec1; cbn [map app flat_map]; exec1; rewrite <- ?app_assoc; cbn [app].

Ltac enter :=
  unfold run, outcome, chat_completions, rag_chat_completions, audio_chat_completions,
    openai_chat_completions_create, refactMessages, chat_params, rag_params,
    system_message, retrieved in *;
  cbv zeta; settle.

Ltac go := enter; exec; settle; exec.

Lemma reject_without_messages E fuel req_body :
  truthy (prop req_body "messages") = false ->
  let d := "Missing messages in request body" in
  rejected d (run (chat_completions E req_body)) /\
  rejected d (run (rag_chat_completions E req_body)) /\
  rejected d (run (audio_chat_completions E fuel req_body)).
Proof.
  intros H d. unfold rejected. enter. exec.
  repeat split; reflexivity.
Qed.

Lemma reject_without_stream E fuel req_body :
  truthy (prop req_body "messages") = true ->
  truthy (with_default (prop req_body "stream") (VBool true)) = false ->
  let d := "chat completions require streaming" in
  rejected d (run (chat_completions E req_body)) /\
  rejected d (run (rag_chat_completions E req_body)) /\
  rejected d (run (audio_chat_completions E fuel req_body)).
Proof.
  intros Hm Hs d. unfold rejected. enter. exec.
  repeat split; reflexivity.
Qed.

(** ** The relay loop *)

Lemma relay_run label chunks failure s :
  finished (res s) = false ->
  relay label (chunks, failure) s
  = (match failure with None => Normal tt | Some e => Throw e end,
     {| res := written (res s) (map data_event chunks);
        trace := (trace s ++ relay_trace label chunks)%list;
        randoms := randoms s; uuids := uuids s |}).
Proof.
  unfold relay. cbn [fst snd]. revert s.
  induction chunks as [|c chunks IH]; intros s Hs.
  - destruct s as [[] ? ? ?]. unfold written. cbn in *.
    rewrite !app_nil_r, orb_false_r. destruct failure; reflexivity.
  - cbn [for_await]. unfold bind at 1.
    unfold logger_debug, res_write, bind, emit, update_res. cbn.
    rewrite Hs. rewrite IH by reflexivity. unfold written, relay_trace. cbn.
    rewrite Hs, <- !app_assoc, orb_true_r. reflexivity.
Qed.

Lemma passes_validation_inv req_body :
  passes_validation req_body = true ->
  truthy (prop req_body "messages") = true /\
  truthy (with_default (prop req_body "stream") (VBool true)) = true.
Proof. unfold passes_validation. intros H. now apply andb_true_iff in H. Qed.


(** ** [/chat/completions], run by run *)

Lemma chat_yields E req_body chunks failure :
  passes_validation req_body = true ->
  openai_create E (chat_params req_body) = Yields chunks failure ->
  chat_completions E req_body initial
  = (Normal tt,
     let opened :=
       (EvLog ("INFO: Received request: " ++ interp (JSON_stringify (VObj req_body)))
        :: sse_header_events ++ EvCreate (chat_params req_body)
        :: relay_trace "Received chunk: " chunks)%list in
     match failure, chunks with
     | None, _ =>
         {| res := streamed (map data_event chunks ++ [done_event])%list;
            trace := (opened ++ [EvWrite done_event; EvEnd])%list;
            randoms := 0; uuids := 0 |}
     | Some e, _ :: _ =>
         {| res := streamed (map data_event chunks ++ [error_event e; done_event])%list;
            trace := (opened ++ [EvLogError "ERROR: Chat completion error:" e;
                                 EvWrite (error_event e); EvWrite done_event; EvEnd])%list;
            randoms := 0; uuids := 0 |}
     | Some e, [] =>
         {| res := failed_before_streaming e;
            trace := (opened ++ [EvLogError "ERROR: Chat completion error:" e;
                                 EvStatus 500; EvJson (detail_body (errorDetail e))])%list;
            randoms := 0; uuids := 0 |}
     end).
Proof.
  intros Hv Hu. apply passes_validation_inv in Hv as [Hm Hs].
  go. rewrite relay_run by reflexivity.
  destruct failure as [e|]; [destruct chunks as [|c chunks]|]; exec; reflexivity.
Qed.

Lemma chat_rejects E req_body e :
  passes_validation req_body = true ->
  openai_create E (chat_params req_body) = Rejects e ->
  chat_completions E req_body initial
  = (Normal tt,
     {| res := failed_before_streaming e;
        trace := (EvLog ("INFO: Received request: " ++ interp (JSON_stringify (VObj req_body)))
                  :: sse_header_events
                  ++ [EvCreate (chat_params req_body);
                      EvLogError "ERROR: Chat completion error:" e;
                      EvStatus 500; EvJson (detail_body (errorDetail e))])%list;
        randoms := 0; uuids := 0 |}).
Proof.
  intros Hv Hu. apply passes_validation_inv in Hv as [Hm Hs].
  go. reflexivity.
Qed.

(** ** [/rag/chat/completions], run by run *)

Lemma rag_yields E req_body items chunks failure :
  passes_validation req_body = true ->
  spread (prop req_body "messages") = Normal items ->
  openai_create E (rag_params req_body items) = Yields chunks failure ->
  rag_chat_completions E req_body initial
  = (Normal tt,
     let opened :=
       (rag_opening E req_body ++ EvCreate (rag_params req_body items)
        :: relay_trace "Received RAG chunk: " chunks)%list in
     match failure with
     | None =>
         {| res := streamed (waiting_event E :: map data_event chunks ++ [done_event])%list;
            trace := (opened ++ [EvWrite done_event; EvEnd])%list;
            randoms := 1; uuids := 0 |}
     | Some e =>
         {| res := streamed (waiting_event E :: map data_event chunks
                             ++ [error_event e; done_event])%list;
            trace := (opened ++ [EvLogError "ERROR: RAG chat completion error:" e;
                                 EvWrite (error_event e); EvWrite done_event; EvEnd])%list;
            randoms := 1; uuids := 0 |}
     end).
Proof.
  intros Hv Hi Hu. apply passes_validation_inv in Hv as [Hm Hs].
  go. rewrite relay_run by reflexivity.
  destruct failure as [e|]; exec; reflexivity.
Qed.

Lemma rag_rejects E req_body items e :
  passes_validation req_body = true ->
  spread (prop req_body "messages") = Normal items ->
  openai_create E (rag_params req_body items) = Rejects e ->
  rag_chat_completions E req_body initial
  = (Normal tt,
     {| res := streamed [waiting_event E; error_event e; done_event];
        trace := (rag_opening E req_body
                  ++ [EvCreate (rag_params req_body items);
                      EvLogError "ERROR: RAG chat completion error:" e;
                      EvWrite (error_event e); EvWrite done_event; EvEnd])%list;
        randoms := 1; uuids := 0 |}).
Proof.
  intros Hv Hi Hu. apply passes_validation_inv in Hv as [Hm Hs].
  go. reflexivity.
Qed.

Lemma rag_not_iterable E req_body e :
  passes_validation req_body = true ->
  spread (prop req_body "messages") = Throw e ->
  rag_chat_completions E req_body initial
  = (Normal tt,
     {| res := streamed [waiting_event E; error_event e; done_event];
        trace := (rag_opening E req_body
                  ++ [EvLogError "ERROR: RAG chat completion error:" e;
                      EvWrite (error_event e); EvWrite done_event; EvEnd])%list;
        randoms := 1; uuids := 0 |}).
Proof.
  intros Hv Hi. apply passes_validation_inv in Hv as [Hm Hs].
  go. reflexivity.
Qed.

(** ** The sentinel is not a chunk *)

Lemma append_inv_l p x y : p ++ x = p ++ y -> x = y.
Proof.
  induction p as [|c p IH]; intros H; [exact H|].
  apply IH. now injection H.
Qed.

Lemma may_start_neq c s t u : may_start c s = false -> s ++ t <> String c u.
Proof.
  intros Hs H. destruct s as [|c' s]; [cbv in Hs; discriminate Hs|].
  lazy beta iota delta [String.append] in H. fold String.append in H.
  injection H as Hc _. subst c'. cbn in Hs. now rewrite Ascii.eqb_refl in Hs.
Qed.

Lemma number_to_string_head n :
  may_start "[" (number_to_string n) = false /\ may_start "D" (number_to_string n) = false.
Proof.
  unfold number_to_string.
  destruct (Z.to_int n) as [d|d]; [destruct d|]; split; reflexivity.
Qed.

Lemma element_head v :
  may_start "D" (match JSON_stringify v with Some s => s | None => "null" end) = false.
Proof.
  destruct v as [| |[]| | | |]; try reflexivity.
  apply number_to_string_head.
Qed.

Lemma array_head (g : value -> string) items :
  (forall x, may_start "D" (g x) = false) ->
  may_start "D" (String.concat "," (map g items) ++ "]") = false.
Proof.
  intros Hg. destruct items as [|x items]; [reflexivity|].
  cbn [map String.concat]. specialize (Hg x). revert Hg.
  destruct (g x) as [|c r]; intros Hg; [cbv in Hg; discriminate Hg|].
  destruct (map g items); exact Hg.
Qed.

Lemma data_event_not_done chunk : data_event chunk <> done_event.
Proof.
  unfold data_event, done_event. intros H.
  change ("data: [DONE]" ++ line_feed ++ line_feed)
    with ("data: " ++ "[DONE]" ++ line_feed ++ line_feed) in H.
  apply append_inv_l in H. revert H.
  change ("[DONE]" ++ line_feed ++ line_feed)
    with (String "[" ("DONE]" ++ line_feed ++ line_feed)).
  destruct chunk as [| |[]| | |items|];
    try (apply may_start_neq; reflexivity).
  - apply may_start_neq, number_to_string_head.
  - change (interp (JSON_stringify (VArr items)))
      with (String "["
              (String.concat ","
                 (map (fun y => match JSON_stringify y with Some s => s | None => "null" end)
                    items) ++ "]")).
    intros H.
    lazy beta iota delta [String.append] in H. fold String.append in H.
    injection H as H. revert H.
    change ("DONE]" ++ line_feed ++ line_feed)
      with (String "D" ("ONE]" ++ line_feed ++ line_feed)).
    apply may_start_neq, array_head, element_head.
Qed.

Lemma count_data_events chunks :
  count_occ string_dec (map data_event chunks ++ [done_event])%list done_event = 1%nat.
Proof.
  induction chunks as [|c chunks IH].
  - cbn [map app count_occ]. destruct (string_dec done_event done_event); congruence.
  - cbn [map app count_occ].
    destruct (string_dec (data_event c) done_event) as [Heq|_]; [|exact IH].
    now apply data_event_not_done in Heq.
Qed.

(** ** The audio loops *)

Lemma state_eta s :
  s = {| res := res s; trace := trace s; randoms := randoms s; uuids := uuids s |}.
Proof. now destruct s. Qed.

Lemma written_nil r : written r [] = r.
Proof. destruct r. unfold written. cbn. now rewrite app_nil_r, orb_false_r. Qed.

Lemma written_app r xs ys : written (written r xs) ys = written r (xs ++ ys).
Proof.
  unfold written. cbn. rewrite <- app_assoc, <- orb_assoc. do 2 f_equal.
  destruct xs, ys; reflexivity.
Qed.

Lemma send_audio_run E audioId chunk s :
  finished (res s) = false ->
  send_audio E audioId chunk s = (Normal tt, after_audio E audioId [chunk] 0 s).
Proof.
  destruct s as [[code hs sent bd fin] tr rs us]. cbn [res finished]. intros ->.
  unfold send_audio, after_audio.
  cbn [audio_events audio_trace flat_map app List.length]. exec.
  rewrite Nat.add_0_r, Nat.add_1_r. now destruct sent.
Qed.

Lemma for_of_send_audio E audioId chunks s :
  finished (res s) = false ->
  for_of chunks (send_audio E audioId) s = (Normal tt, after_audio E audioId chunks 0 s).
Proof.
  revert s. induction chunks as [|chunk chunks IH]; intros s Hs.
  - unfold after_audio. cbn. rewrite written_nil, app_nil_r, !Nat.add_0_r.
    now rewrite <- state_eta.
  - cbn [for_of]. unfold bind. rewrite send_audio_run by exact Hs.
    rewrite IH by exact Hs. unfold after_audio.
    cbn [res trace randoms uuids audio_events audio_trace flat_map app List.length].
    rewrite written_app, <- !app_assoc, !Nat.add_0_r, Nat.add_1_r, Nat.add_succ_r.
    reflexivity.
Qed.

Lemma fill_map_draws E n s :
  fill_map n (r <- Math_random_next E ;; ret (Math_floor (r * 256))) s
  = (Normal (draws E (randoms s) n),
     {| res := res s; trace := trace s; randoms := randoms s + n; uuids := uuids s |}).
Proof.
  revert s. induction n as [|n IH]; intros s.
  - cbn. now rewrite Nat.add_0_r, <- state_eta.
  - cbn [fill_map draws]. unfold bind at 1 2. unfold Math_random_next at 1, ret at 1.
    unfold bind at 1. rewrite IH. cbn [randoms res trace uuids ret].
    unfold ret, Math_floor. now rewrite Nat.add_succ_r.
Qed.

Lemma for_of_fillers E audioId (l : list nat) s :
  finished (res s) = false ->
  for_of l (send_simulated E audioId) s
  = (Normal tt,
     after_audio E audioId (fillers E (randoms s) (List.length l)) (40 * List.length l) s).
Proof.
  revert s. induction l as [|x l IH]; intros s Hs.
  - unfold after_audio. cbn. rewrite written_nil, app_nil_r, !Nat.add_0_r.
    now rewrite <- state_eta.
  - cbn [for_of]. unfold send_simulated at 1. unfold bind at 1 2. rewrite fill_map_draws.
    cbv zeta. rewrite send_audio_run by exact Hs. rewrite IH by exact Hs.
    unfold after_audio.
    cbn [res trace randoms uuids audio_events audio_trace flat_map app List.length fillers].
    rewrite written_app, <- !app_assoc.
    cbn [audio_events app].
    rewrite !Nat.add_0_r, Nat.add_1_r, !Nat.add_succ_r.
    f_equal. f_equal. lia.
Qed.

(** ** Chunking a PCM asset *)

Lemma below_ceil_div S C k : (0 < C)%nat -> (k * C < S)%nat <-> (k < ceil_div S C)%nat.
Proof.
  intros HC. unfold ceil_div. split; intros H.
  - apply Nat.lt_le_trans with (m := ((k + 1) * C / C)%nat).
    + rewrite Nat.div_mul by lia. lia.
    + apply Nat.Div0.div_le_mono. nia.
  - pose proof (Nat.Div0.mul_div_le (S + C - 1) C) as Hq. nia.
Qed.

Lemma slice_pcm_range content C k :
  (0 < C)%nat -> (k * C < List.length content)%nat ->
  Buffer.slice content (Z.of_nat (k * C)) (Z.of_nat (k * C) + Z.of_nat C)
  = pcm_range content C k.
Proof.
  intros HC Hk. unfold Buffer.slice, pcm_range, byte_range.
  destruct (Z.ltb_spec (Z.of_nat (k * C)) 0) as [?|_]; [lia|].
  destruct (Z.ltb_spec (Z.of_nat (k * C) + Z.of_nat C) 0) as [?|_]; [lia|].
  destruct (Z.leb_spec (Z.min (Z.of_nat (k * C) + Z.of_nat C) (Z.of_nat (List.length content)))
              (Z.min (Z.of_nat (k * C)) (Z.of_nat (List.length content)))) as [?|_]; [lia|].
  f_equal; [|f_equal]; lia.
Qed.

Lemma readPCMFile_loop_chunks content C fuel k acc :
  (0 < C)%nat ->
  (ceil_div (List.length content) C - k < fuel)%nat ->
  readPCMFile_loop fuel content (Z.of_nat C) (Z.of_nat (k * C)) acc
  = Normal (acc ++ map (pcm_range content C)
                     (seq k (ceil_div (List.length content) C - k)))%list.
Proof.
  intros HC. revert k acc. induction fuel as [|fuel IH]; intros k acc Hf; [lia|].
  cbn [readPCMFile_loop].
  destruct (Z.ltb_spec (Z.of_nat (k * C)) (Z.of_nat (List.length content))) as [Hlt|Hge].
  - assert (Hk : (k * C < List.length content)%nat) by lia.
    pose proof (proj1 (below_ceil_div _ _ _ HC) Hk) as Hn.
    rewrite slice_pcm_range by assumption.
    replace (Z.of_nat (k * C) + Z.of_nat C)%Z with (Z.of_nat (S k * C)) by lia.
    rewrite IH by lia. rewrite <- app_assoc. cbn [app].
    replace (ceil_div (List.length content) C - k)%nat
      with (S (ceil_div (List.length content) C - S k)) by lia.
    reflexivity.
  - assert (Hk : ~ (k < ceil_div (List.length content) C)%nat).
    { intros Hn. apply (below_ceil_div _ _ _ HC) in Hn. lia. }
    replace (ceil_div (List.length content) C - k)%nat with 0%nat by lia.
    cbn. now rewrite app_nil_r.
Qed.

Lemma ceil_div_le S C : (0 < C)%nat -> (ceil_div S C <= S)%nat.
Proof.
  intros HC. destruct (Nat.le_gt_cases (ceil_div S C) S) as [H|H]; [exact H|].
  apply (below_ceil_div _ _ _ HC) in H. nia.
Qed.

Lemma readPCMFile_loop_total content C fuel :
  (0 < C)%nat -> (List.length content < fuel)%nat ->
  readPCMFile_loop fuel content (Z.of_nat C) 0 [] = Normal (pcm_chunks content C).
Proof.
  intros HC Hf. pose proof (ceil_div_le (List.length content) C HC).
  change 0%Z with (Z.of_nat (0 * C)).
  rewrite readPCMFile_loop_chunks by lia.
  now rewrite Nat.sub_0_r.
Qed.

Lemma length_pcm_chunks content C :
  List.length (pcm_chunks content C) = ceil_div (List.length content) C.
Proof. unfold pcm_chunks. now rewrite length_map, length_seq. Qed.

Lemma nth_pcm_chunks content C k :
  (k < ceil_div (List.length content) C)%nat ->
  nth_error (pcm_chunks content C) k = Some (pcm_range content C k).
Proof.
  intros Hk. unfold pcm_chunks.
  rewrite nth_error_map, nth_error_nth' with (d := 0%nat) by now rewrite length_seq.
  now rewrite seq_nth.
Qed.

(** A zero step never gets past the first byte. *)
Lemma readPCMFile_loop_stuck fuel content chunks :
  content <> [] ->
  readPCMFile_loop fuel content 0 0 chunks = Diverge.
Proof.
  intros Hc. revert chunks. induction fuel as [|fuel IH]; intros chunks; [reflexivity|].
  cbn [readPCMFile_loop].
  destruct (Z.ltb_spec 0 (Z.of_nat (List.length content))) as [_|H].
  - apply IH.
  - destruct content; [congruence|cbn in H; lia].
Qed.

(** ** Base64 round trip *)

Lemma sextets_checked :
  forallb (fun n => match Base64.char_sextet (Buffer.sextet_char n) with
                    | Some m => (m =? n)%N && negb (Base64.is_pad (Buffer.sextet_char n))
                    | None => false
                    end)
          (map N.of_nat (seq 0 64)) = true.
Proof. vm_compute. reflexivity. Qed.

Lemma sextet_roundtrip n :
  (n < 64)%N ->
  Base64.char_sextet (Buffer.sextet_char n) = Some n
  /\ Base64.is_pad (Buffer.sextet_char n) = false.
Proof.
  intros Hn. pose proof sextets_checked as H.
  rewrite forallb_forall in H. specialize (H n).
  assert (Hin : In n (map N.of_nat (seq 0 64))).
  { apply in_map_iff. exists (N.to_nat n). split; [apply N2Nat.id|].
    apply in_seq. lia. }
  specialize (H Hin).
  destruct (Base64.char_sextet (Buffer.sextet_char n)) as [m|]; [|discriminate H].
  apply andb_true_iff in H as [Hm Hp]. apply N.eqb_eq in Hm. subst m.
  split; [reflexivity|]. now apply negb_true_iff in Hp.
Qed.

Lemma quad_sextets s1 s2 s3 s4 :
  (s1 < 64)%N -> (s2 < 64)%N -> (s3 < 64)%N -> (s4 < 64)%N ->
  Base64.quad (Buffer.sextet_char s1) (Buffer.sextet_char s2)
    (Buffer.sextet_char s3) (Buffer.sextet_char s4)
  = Some (s1 * 262144 + s2 * 4096 + s3 * 64 + s4)%N.
Proof.
  intros H1 H2 H3 H4. unfold Base64.quad.
  rewrite (proj1 (sextet_roundtrip s1 H1)), (proj1 (sextet_roundtrip s2 H2)),
    (proj1 (sextet_roundtrip s3 H3)), (proj1 (sextet_roundtrip s4 H4)).
  reflexivity.
Qed.

Lemma bytes3_pack x y z :
  Base64.bytes3 (Byte.to_N x * 65536 + Byte.to_N y * 256 + Byte.to_N z)
  = Some [x; y; z].
Proof.
  pose proof (Byte.to_N_bounded x). pose proof (Byte.to_N_bounded y).
  pose proof (Byte.to_N_bounded z).
  unfold Base64.bytes3, Base64.byte_of.
  replace ((Byte.to_N x * 65536 + Byte.to_N y * 256 + Byte.to_N z) / 65536)%N
    with (Byte.to_N x) by (apply N.div_unique with (r := (Byte.to_N y * 256 + Byte.to_N z)%N); lia).
  replace (((Byte.to_N x * 65536 + Byte.to_N y * 256 + Byte.to_N z) / 256) mod 256)%N
    with (Byte.to_N y).
  2:{ replace ((Byte.to_N x * 65536 + Byte.to_N y * 256 + Byte.to_N z) / 256)%N
        with (Byte.to_N x * 256 + Byte.to_N y)%N
        by (apply N.div_unique with (r := Byte.to_N z); lia).
      apply N.mod_unique with (q := Byte.to_N x); lia. }
  replace ((Byte.to_N x * 65536 + Byte.to_N y * 256 + Byte.to_N z) mod 256)%N
    with (Byte.to_N z)
    by (apply N.mod_unique with (q := (Byte.to_N x * 256 + Byte.to_N y)%N); lia).
  now rewrite !Byte.of_to_N.
Qed.

(** The four sextets of a 24-bit group put it together again. *)
Lemma sextets_of_group n :
  (n < 16777216)%N ->
  ((n / 262144) < 64
   /\ (n / 4096) mod 64 < 64 /\ (n / 64) mod 64 < 64 /\ n mod 64 < 64
   /\ (n / 262144) * 262144 + ((n / 4096) mod 64) * 4096 + ((n / 64) mod 64) * 64 + n mod 64 = n)%N.
Proof.
  intros Hn.
  pose proof (N.div_mod n 64 ltac:(lia)) as E1.
  pose proof (N.div_mod (n / 64) 64 ltac:(lia)) as E2.
  pose proof (N.div_mod (n / 64 / 64) 64 ltac:(lia)) as E3.
  pose proof (N.mod_lt n 64 ltac:(lia)).
  pose proof (N.mod_lt (n / 64) 64 ltac:(lia)).
  pose proof (N.mod_lt (n / 4096) 64 ltac:(lia)).
  assert (D2 : (n / 4096 = n / 64 / 64)%N) by (rewrite N.Div0.div_div; reflexivity).
  assert (D3 : (n / 262144 = n / 64 / 64 / 64)%N) by (rewrite !N.Div0.div_div; reflexivity).
  assert ((n / 262144 < 64)%N) by (apply N.Div0.div_lt_upper_bound; lia).
  pose proof (N.div_mod (n / 4096) 64 ltac:(lia)) as E4.
  rewrite D2 in *. rewrite D3 in *.
  repeat split; try assumption. lia.
Qed.

Lemma list_ind3 {A} (P : list A -> Prop) :
  P [] -> (forall x, P [x]) -> (forall x y, P [x; y]) ->
  (forall x y z rest, P rest -> P (x :: y :: z :: rest)) ->
  forall l, P l.
Proof.
  intros H0 H1 H2 H3. fix IH 1. intros [|x [|y [|z rest]]].
  - exact H0.
  - apply H1.
  - apply H2.
  - apply H3, IH.
Qed.

Lemma group_bound x y z :
  (Byte.to_N x * 65536 + Byte.to_N y * 256 + Byte.to_N z < 16777216)%N.
Proof.
  pose proof (Byte.to_N_bounded x). pose proof (Byte.to_N_bounded y).
  pose proof (Byte.to_N_bounded z). lia.
Qed.

Lemma decode_group x y z tail rest :
  Base64.decode rest = Some tail ->
  let n := (Byte.to_N x * 65536 + Byte.to_N y * 256 + Byte.to_N z)%N in
  Base64.decode
    (String (Buffer.sextet_char (n / 262144))
       (String (Buffer.sextet_char ((n / 4096) mod 64))
          (String (Buffer.sextet_char ((n / 64) mod 64))
             (String (Buffer.sextet_char (n mod 64)) rest))))
  = Some (x :: y :: z :: tail).
Proof.
  intros Hrest n.
  destruct (sextets_of_group n (group_bound x y z)) as (B1 & B2 & B3 & B4 & Hn).
  cbn [Base64.decode].
  rewrite (proj2 (sextet_roundtrip _ B4)).
  rewrite quad_sextets by assumption. rewrite Hn, Hrest.
  unfold n. rewrite bytes3_pack. reflexivity.
Qed.

(** Every buffer comes back from its base64 text. *)
Lemma base64_roundtrip (b : Buffer.t) :
  Base64.decode (Buffer.toString_base64 b) = Some b.
Proof.
  induction b as [|x|x y|x y z rest IH] using list_ind3.
  - reflexivity.
  - cbn [Buffer.toString_base64].
    set (n := (Byte.to_N x * 65536)%N).
    assert (En : n = (Byte.to_N x * 65536 + Byte.to_N x00 * 256 + Byte.to_N x00)%N)
      by (unfold n; cbn [Byte.to_N]; lia).
    destruct (sextets_of_group n) as (B1 & B2 & B3 & B4 & Hn);
      [rewrite En; apply group_bound|].
    assert (Z3 : ((n / 64) mod 64 = 0)%N).
    { unfold n. replace (Byte.to_N x * 65536)%N with (Byte.to_N x * 16 * 64 * 64)%N by lia.
      rewrite N.div_mul by lia. apply N.Div0.mod_mul. }
    assert (Z4 : (n mod 64 = 0)%N).
    { unfold n. replace (Byte.to_N x * 65536)%N with (Byte.to_N x * 1024 * 64)%N by lia.
      apply N.Div0.mod_mul. }
    cbn [Base64.decode].
    change (Base64.is_pad "=") with true. cbv iota.
    change "A"%char with (Buffer.sextet_char 0).
    rewrite quad_sextets by (assumption || lia).
    rewrite Z3, Z4 in Hn. rewrite Hn, En, bytes3_pack. reflexivity.
  - cbn [Buffer.toString_base64].
    set (n := (Byte.to_N x * 65536 + Byte.to_N y * 256)%N).
    assert (En : n = (Byte.to_N x * 65536 + Byte.to_N y * 256 + Byte.to_N x00)%N)
      by (unfold n; cbn [Byte.to_N]; lia).
    destruct (sextets_of_group n) as (B1 & B2 & B3 & B4 & Hn);
      [rewrite En; apply group_bound|].
    assert (Z4 : (n mod 64 = 0)%N).
    { unfold n.
      replace (Byte.to_N x * 65536 + Byte.to_N y * 256)%N
        with ((Byte.to_N x * 1024 + Byte.to_N y * 4) * 64)%N by lia.
      apply N.Div0.mod_mul. }
    cbn [Base64.decode].
    change (Base64.is_pad "=") with true. cbv iota.
    rewrite (proj2 (sextet_roundtrip _ B3)).
    change "A"%char with (Buffer.sextet_char 0).
    rewrite quad_sextets by (assumption || lia).
    rewrite Z4 in Hn. rewrite Hn, En, bytes3_pack. reflexivity.
  - cbn [Buffer.toString_base64]. now apply decode_group.
Qed.

(** ** [/audio/chat/completions], run by run *)

Lemma chunk_size_handler : chunk_size 16000 40 = Whole 1280.
Proof. reflexivity. Qed.

Lemma audio_streams E fuel req_body text content chunks :
  passes_validation req_body = true ->
  fs_readFile E "./file.txt" = inr text ->
  fs_readFile E "./file.pcm" = inr content ->
  readPCMFile_loop fuel content 1280 0 [] = Normal chunks ->
  let U := crypto_randomUUID E in
  outcome (audio_chat_completions E fuel req_body) = Normal tt
  /\ res (run (audio_chat_completions E fuel req_body))
     = streamed (transcript_event (U 1%nat) (U 0%nat) (string_of_list_byte text)
                 :: audio_events E (U 0%nat) 2 chunks ++ [done_event])%list.
Proof.
  intros Hv Ht Hp Hl U. apply passes_validation_inv in Hv as [Hm Hs].
  unfold outcome, run. go.
  rewrite chunk_size_handler. cbn [readPCMFile_chunks]. rewrite Hl. exec.
  rewrite for_of_send_audio by reflexivity. unfold after_audio. exec.
  split; reflexivity.
Qed.

Lemma audio_falls_back E fuel req_body e :
  passes_validation req_body = true ->
  fs_readFile E "./file.txt" = inl e
  \/ (exists text, fs_readFile E "./file.txt" = inr text)
     /\ fs_readFile E "./file.pcm" = inl e ->
  let U := crypto_randomUUID E in
  outcome (audio_chat_completions E fuel req_body) = Normal tt
  /\ res (run (audio_chat_completions E fuel req_body))
     = streamed (transcript_event (U 1%nat) (U 0%nat) fallback_transcript
                 :: audio_events E (U 0%nat) 2 (fillers E 0 5) ++ [done_event])%list.
Proof.
  intros Hv H U. apply passes_validation_inv in Hv as [Hm Hs].
  unfold outcome, run.
  destruct H as [Ht|[[text Ht] Hp]]; go;
    rewrite (for_of_fillers E _ (seq 0 5)) by reflexivity;
    unfold after_audio; exec; split; reflexivity.
Qed.

Lemma readPCMFile_loop_no_throw fuel content chunkSize i chunks e :
  readPCMFile_loop fuel content chunkSize i chunks <> Throw e.
Proof.
  revert i chunks. induction fuel as [|fuel IH]; intros i chunks; cbn; [discriminate|].
  destruct (i <? Z.of_nat (List.length content))%Z; [apply IH|discriminate].
Qed.



Lemma audio_diverges E fuel req_body text content :
  passes_validation req_body = true ->
  fs_readFile E "./file.txt" = inr text ->
  fs_readFile E "./file.pcm" = inr content ->
  readPCMFile_loop fuel content 1280 0 [] = Diverge ->
  outcome (audio_chat_completions E fuel req_body) = Diverge
  /\ res (run (audio_chat_completions E fuel req_body))
     = {| statusCode := 200; headers := sse_headers; headersSent := false;
          body := []; finished := false |}.
Proof.
  intros Hv Ht Hp Hl. apply passes_validation_inv in Hv as [Hm Hs].
  unfold outcome, run. go.
  rewrite chunk_size_handler. cbn [readPCMFile_chunks]. rewrite Hl. exec.
  split; reflexivity.
Qed.

(** ** Facts about the events *)

Lemma length_audio_events E audioId first chunks :
  List.length (audio_events E audioId first chunks) = List.length chunks.
Proof.
  revert first. induction chunks as [|c chunks IH]; intros first; cbn; [reflexivity|].
  now rewrite IH.
Qed.

Lemma nth_audio_events E audioId first chunks k chunk :
  nth_error chunks k = Some chunk ->
  nth_error (audio_events E audioId first chunks) k
  = Some (audio_event (crypto_randomUUID E (first + k)) audioId (Buffer.toString_base64 chunk)).
Proof.
  revert first k. induction chunks as [|c chunks IH]; intros first [|k] H; cbn in *;
    try discriminate H.
  - injection H as ->. now rewrite Nat.add_0_r.
  - rewrite (IH (S first) k H). now rewrite Nat.add_succ_r.
Qed.

Lemma length_draws E first n : List.length (draws E first n) = n.
Proof. revert first. induction n as [|n IH]; intros first; cbn; [|rewrite IH]; reflexivity. Qed.

Lemma length_fillers E first n : List.length (fillers E first n) = n.
Proof. revert first. induction n as [|n IH]; intros first; cbn; [|rewrite IH]; reflexivity. Qed.

Lemma fillers_40_bytes E first n chunk :
  In chunk (fillers E first n) -> List.length chunk = 40%nat.
Proof.
  revert first. induction n as [|n IH]; intros first; cbn [fillers]; [intros []|].
  intros [H|H].
  - subst chunk. unfold Buffer.from. now rewrite length_map, length_draws.
  - now apply IH in H.
Qed.

(** An error event is not an audio event: the two JSON texts part at the
    first property name. *)
Lemma error_event_not_audio e E audioId first chunks :
  ~ In (error_event e) (audio_events E audioId first chunks).
Proof.
  revert first. induction chunks as [|c chunks IH]; intros first; cbn [audio_events].
  - intros [].
  - intros [H|H]; [|now apply IH in H].
    unfold error_event, audio_event, data_event in H. apply append_inv_l in H.
    apply (f_equal (String.get 2)) in H. lazy in H. discriminate H.
Qed.

Lemma error_event_not_transcript e id audioId transcript :
  error_event e <> transcript_event id audioId transcript.
Proof.
  unfold error_event, transcript_event, data_event. intros H. apply append_inv_l in H.
  apply (f_equal (String.get 2)) in H. lazy in H. discriminate H.
Qed.

Lemma waiting_phrase r :
  (0 <= r)%Q -> (r < 1)%Q ->
  exists phrase,
    In phrase filler_phrases /\ index filler_phrases (Qfloor (r * 3)) = VStr phrase.
Proof.
  intros H0 H1.
  set (x := (r * 3)%Q).
  assert (Hlo : (0 <= Qfloor x)%Z).
  { change 0%Z with (Qfloor 0). apply Qfloor_resp_le. unfold x.
    apply Qmult_le_0_compat; [exact H0|discriminate]. }
  assert (Hhi : (Qfloor x < 3)%Z).
  { rewrite Zlt_Qlt. apply Qle_lt_trans with (y := x); [apply Qfloor_le|].
    unfold x. apply Qlt_le_trans with (y := (1 * 3)%Q).
    - apply Qmult_lt_compat_r; [reflexivity|exact H1].
    - apply Qle_refl. }
  assert (Hc : Qfloor x = 0%Z \/ Qfloor x = 1%Z \/ Qfloor x = 2%Z) by lia.
  destruct Hc as [ Hc | [ Hc | Hc ] ]; rewrite Hc; eexists; (split; [|reflexivity]); cbn; auto.
Qed.

Lemma spread_no_diverge v : spread v <> Diverge.
Proof. destruct v; discriminate. Qed.

(** ** After validation *)

Ltac ok := split; [reflexivity|cbn [statusCode streamed failed_before_streaming]; discriminate].

Lemma valid_request_opens_sse E fuel req_body :
  passes_validation req_body = true ->
  opens_sse (run (chat_completions E req_body))
  /\ opens_sse (run (rag_chat_completions E req_body))
  /\ opens_sse (run (audio_chat_completions E fuel req_body)).
Proof.
  intros Hv. unfold opens_sse.
  split; [|split].
  - unfold run.
    destruct (openai_create E (chat_params req_body)) as [e|chunks failure] eqn:Hu.
    + rewrite (chat_rejects _ _ _ Hv Hu). ok.
    + rewrite (chat_yields _ _ _ _ Hv Hu).
      destruct failure as [e|]; [destruct chunks|]; ok.
  - unfold run.
    destruct (spread (prop req_body "messages")) as [items|e|] eqn:Hi.
    + destruct (openai_create E (rag_params req_body items)) as [e|chunks failure] eqn:Hu.
      * rewrite (rag_rejects _ _ _ _ Hv Hi Hu). ok.
      * rewrite (rag_yields _ _ _ _ _ Hv Hi Hu). destruct failure; ok.
    + rewrite (rag_not_iterable _ _ _ Hv Hi). ok.
    + now apply spread_no_diverge in Hi.
  - destruct (fs_readFile E "./file.txt") as [e|text] eqn:Ht.
    { destruct (audio_falls_back E fuel req_body e Hv (or_introl Ht)) as [_ Hr].
      rewrite Hr. ok. }
    destruct (fs_readFile E "./file.pcm") as [e|content] eqn:Hp.
    { destruct (audio_falls_back E fuel req_body e Hv
                  (or_intror (conj (ex_intro _ text Ht) Hp))) as [_ Hr].
      rewrite Hr. ok. }
    destruct (readPCMFile_loop fuel content 1280 0 []) as [chunks|e|] eqn:Hl.
    + destruct (audio_streams E fuel req_body text content chunks Hv Ht Hp Hl) as [_ Hr].
      rewrite Hr. ok.
    + now apply readPCMFile_loop_no_throw in Hl.
    + destruct (audio_diverges E fuel req_body text content Hv Ht Hp Hl) as [_ Hr].
      rewrite Hr. ok.
Qed.



(** ** The statements about the three endpoints *)

(** C1. A request to [/chat/completions] that passes validation, with an
    upstream stream of N chunks that ends cleanly, is answered with N + 1
    events. The [k]-th is the text [data: ], the JSON text of the [k]-th
    chunk of the stream, and two line feeds; the last is
    [data: [DONE]] and two line feeds. The sentinel occurs once, and
    nothing comes after it. *)
Theorem chat_relays_chunks_then_done E req_body chunks :
  passes_validation req_body = true ->
  openai_create E (chat_params req_body) = Yields chunks None ->
  let answer := res (run (chat_completions E req_body)) in
  body answer = (map data_event chunks ++ [done_event])%list
  /\ List.length (body answer) = S (List.length chunks)
  /\ count_occ string_dec (body answer) done_event = 1%nat
  /\ last (body answer) "" = done_event
  /\ statusCode answer = 200%Z
  /\ headers answer = sse_headers
  /\ finished answer = true
  /\ outcome (chat_completions E req_body) = Normal tt
  /\ (forall k chunk,
        nth_error chunks k = Some chunk ->
        nth_error (body answer) k
        = Some ("data: " ++ interp (JSON_stringify chunk) ++ line_feed ++ line_feed))
  /\ nth_error (body answer) (List.length chunks)
     = Some ("data: [DONE]" ++ line_feed ++ line_feed).
Proof.
  intros Hv Hu. unfold run, outcome.
  rewrite (chat_yields _ _ _ _ Hv Hu). cbn [fst snd res streamed body statusCode
    headers finished].
  repeat split.
  - rewrite length_app, length_map. cbn. lia.
  - apply count_data_events.
  - apply last_last.
  - intros k chunk Hk. rewrite nth_error_app1.
    + now apply (map_nth_error data_event) in Hk.
    + rewrite length_map. apply nth_error_Some. congruence.
  - rewrite nth_error_app2 by (rewrite length_map; lia).
    now rewrite length_map, Nat.sub_diag.
Qed.

(** C1 at the scenario of the specification: two chunks, then the sentinel. *)
Lemma chat_relays_chunks_then_done_witness :
  body (res (run (chat_completions (sample_env (Yields sample_chunks None)) sample_request)))
  = (map data_event sample_chunks ++ [done_event])%list.
Proof.
  exact (proj1 (chat_relays_chunks_then_done
                  (sample_env (Yields sample_chunks None)) sample_request sample_chunks
                  eq_refl eq_refl)).
Defined.

(** C2, as the claim has it, fails: when the upstream call of
    [/chat/completions] is rejected nothing has been written yet, and the
    [catch] block answers with HTTP 500 and a JSON body, not with an SSE
    error event and the sentinel. *)
Lemma chat_open_failure_is_http_500 :
  let E := sample_env (Rejects boom) in
  passes_validation sample_request = true
  /\ openai_create E (chat_params sample_request) = Rejects boom
  /\ statusCode (res (run (chat_completions E sample_request))) = 500%Z
  /\ body (res (run (chat_completions E sample_request))) = [detail_body (errorDetail boom)]
  /\ ~ In (error_event boom) (body (res (run (chat_completions E sample_request))))
  /\ ~ In done_event (body (res (run (chat_completions E sample_request)))).
Proof.
  cbv zeta. unfold run.
  rewrite (chat_rejects (sample_env (Rejects boom)) sample_request boom eq_refl eq_refl).
  cbn [fst snd res failed_before_streaming statusCode body].
  repeat split; try reflexivity.
  - intros [H|[]]. vm_compute in H. discriminate H.
  - intros [H|[]]. vm_compute in H. discriminate H.
Qed.

(** C2, amended. After validation a failure is reported in band, as one
    [{error: message}] event followed by [data: [DONE]] under HTTP 200,
    once something has been written: on [/chat/completions] from the first
    forwarded chunk on, on [/rag/chat/completions] always (the waiting
    message comes first), also when the upstream call is rejected or the
    messages cannot be spread. On [/chat/completions] a failure before the
    first chunk (the call is rejected, or the stream fails at once) is
    answered with HTTP 500 and a JSON body [{detail}]. *)
Theorem failure_after_validation E req_body e :
  passes_validation req_body = true ->
  (forall c chunks,
      openai_create E (chat_params req_body) = Yields (c :: chunks) (Some e) ->
      res (run (chat_completions E req_body))
      = streamed (map data_event (c :: chunks) ++ [error_event e; done_event])%list)
  /\ (openai_create E (chat_params req_body) = Rejects e
      \/ openai_create E (chat_params req_body) = Yields [] (Some e) ->
      res (run (chat_completions E req_body)) = failed_before_streaming e)
  /\ (forall items chunks,
      spread (prop req_body "messages") = Normal items ->
      openai_create E (rag_params req_body items) = Yields chunks (Some e) ->
      res (run (rag_chat_completions E req_body))
      = streamed (waiting_event E :: map data_event chunks
                  ++ [error_event e; done_event])%list)
  /\ (forall items,
      spread (prop req_body "messages") = Normal items ->
      openai_create E (rag_params req_body items) = Rejects e ->
      res (run (rag_chat_completions E req_body))
      = streamed [waiting_event E; error_event e; done_event])
  /\ (spread (prop req_body "messages") = Throw e ->
      res (run (rag_chat_completions E req_body))
      = streamed [waiting_event E; error_event e; done_event]).
Proof.
  intros Hv. unfold run. repeat split.
  - intros c chunks Hu. now rewrite (chat_yields _ _ _ _ Hv Hu).
  - intros [Hu|Hu].
    + now rewrite (chat_rejects _ _ _ Hv Hu).
    + now rewrite (chat_yields _ _ _ _ Hv Hu).
  - intros items chunks Hi Hu. now rewrite (rag_yields _ _ _ _ _ Hv Hi Hu).
  - intros items Hi Hu. now rewrite (rag_rejects _ _ _ _ Hv Hi Hu).
  - intros Hi. now rewrite (rag_not_iterable _ _ _ Hv Hi).
Qed.

(** C2, amended, at a rejected upstream call of [/rag/chat/completions]. *)
Lemma failure_after_validation_witness :
  res (run (rag_chat_completions (sample_env (Rejects boom)) sample_request))
  = streamed [waiting_event (sample_env (Rejects boom)); error_event boom; done_event].
Proof.
  exact (proj1 (proj2 (proj2 (proj2
           (failure_after_validation (sample_env (Rejects boom)) sample_request boom
              eq_refl))))
           _ eq_refl eq_refl).
Defined.

(** C3. A request without [messages], and a request whose [stream] is
    [false], is answered by each of the three endpoints with HTTP 400 and
    a JSON body that has a [detail] field; no SSE header is set and no SSE
    event is written. *)
Theorem invalid_request_is_rejected E fuel req_body :
  prop req_body "messages" = VUndefined \/ prop req_body "stream" = VBool false ->
  exists detail,
    rejected detail (run (chat_completions E req_body))
    /\ rejected detail (run (rag_chat_completions E req_body))
    /\ rejected detail (run (audio_chat_completions E fuel req_body)).
Proof.
  intros H.
  destruct (truthy (prop req_body "messages")) eqn:Hm.
  - destruct H as [H|H]; [rewrite H in Hm; discriminate Hm|].
    eexists. apply reject_without_stream; [exact Hm|]. now rewrite H.
  - eexists. now apply reject_without_messages.
Qed.

(** C3 at a request with [stream: false]. *)
Lemma invalid_request_is_rejected_witness :
  exists detail,
    rejected detail (run (chat_completions (sample_env (Yields sample_chunks None))
                            [("messages", VArr []); ("stream", VBool false)]))
    /\ rejected detail (run (rag_chat_completions (sample_env (Yields sample_chunks None))
                               [("messages", VArr []); ("stream", VBool false)]))
    /\ rejected detail (run (audio_chat_completions (sample_env (Yields sample_chunks None)) 0
                               [("messages", VArr []); ("stream", VBool false)])).
Proof.
  exact (invalid_request_is_rejected (sample_env (Yields sample_chunks None)) 0
           [("messages", VArr []); ("stream", VBool false)] (or_intror eq_refl)).
Defined.

(** C4. With the transcript and the PCM asset on disk, a valid request to
    [/audio/chat/completions] is answered with the transcript event and
    then one audio event per chunk of the asset: with [S] bytes and the
    chunk size [C = floor(16000 * 2 * (40 / 1000)) = 1280] of the handler,
    computed on doubles, there are [ceil(S / C)] of them. The [k]-th is
    the event [data: ] with the JSON text of a chunk that has one choice,
    whose delta carries under [audio] the audio id of the answer and a
    [data] string, and that string decodes from base64 to the bytes
    [k * C, ..., min ((k + 1) * C, S) - 1] of the asset. The loop returns
    on every fuel above [S]. *)
Theorem audio_chunks_cover_asset E fuel req_body text content :
  passes_validation req_body = true ->
  fs_readFile E "./file.txt" = inr text ->
  fs_readFile E "./file.pcm" = inr content ->
  (List.length content < fuel)%nat ->
  let S := List.length content in
  let C := 1280%nat in
  let U := crypto_randomUUID E in
  let answer := body (res (run (audio_chat_completions E fuel req_body))) in
  chunk_size 16000 40 = Whole (Z.of_nat C)
  /\ outcome (audio_chat_completions E fuel req_body) = Normal tt
  /\ List.length answer = (ceil_div S C + 2)%nat
  /\ nth_error answer 0
     = Some (data_event (single_choice_chunk (U 1%nat)
                           (transcript_delta (U 0%nat) (string_of_list_byte text))))
  /\ nth_error answer (ceil_div S C + 1) = Some done_event
  /\ forall k, (k < ceil_div S C)%nat ->
       exists payload choice,
         let message := single_choice_chunk (U (2 + k)%nat) (audio_delta (U 0%nat) payload) in
         nth_error answer (1 + k) = Some (data_event message)
         /\ elements (field message "choices") = [choice]
         /\ field (delta_audio choice) "id" = VStr (U 0%nat)
         /\ field (delta_audio choice) "data" = VStr payload
         /\ Base64.decode payload
            = Some (byte_range content (k * C) (Nat.min ((k + 1) * C) S)).
Proof.
  intros Hv Ht Hp Hf S C U answer.
  assert (Hl : readPCMFile_loop fuel content 1280 0 [] = Normal (pcm_chunks content C)).
  { change 1280%Z with (Z.of_nat C). apply readPCMFile_loop_total; [unfold C; lia|exact Hf]. }
  destruct (audio_streams E fuel req_body text content _ Hv Ht Hp Hl) as [Ho Hr].
  set (audio := audio_events E (U 0%nat) 2 (pcm_chunks content C)).
  assert (Ha : List.length audio = ceil_div S C).
  { unfold audio. now rewrite length_audio_events, length_pcm_chunks. }
  assert (Hb : answer = (transcript_event (U 1%nat) (U 0%nat) (string_of_list_byte text)
                         :: audio ++ [done_event])%list).
  { unfold answer. now rewrite Hr. }
  split; [reflexivity|]. split; [exact Ho|]. rewrite Hb. split.
  { cbn [List.length]. rewrite length_app, Ha. cbn [List.length]. lia. }
  split; [reflexivity|]. split.
  { rewrite Nat.add_1_r. cbn [nth_error]. rewrite nth_error_app2 by lia.
    rewrite Ha, Nat.sub_diag. reflexivity. }
  intros k Hk. exists (Buffer.toString_base64 (pcm_range content C k)). eexists.
  cbv zeta. split.
  { cbn [Nat.add nth_error]. rewrite nth_error_app1 by lia.
    unfold audio. apply nth_audio_events. now apply nth_pcm_chunks. }
  split; [reflexivity|]. split; [reflexivity|]. split; [reflexivity|].
  apply base64_roundtrip.
Qed.

(** C4 at an asset of 3000 bytes: three audio events between the
    transcript and the sentinel. *)
Lemma audio_chunks_cover_asset_witness :
  List.length (body (res (run (audio_chat_completions sample_audio_env 3001 sample_request))))
  = (ceil_div (List.length sample_pcm) 1280 + 2)%nat.
Proof.
  exact (proj1 (proj2 (proj2
           (audio_chunks_cover_asset sample_audio_env 3001 sample_request
              (list_byte_of_string "hello") sample_pcm eq_refl eq_refl eq_refl
              ltac:(vm_compute; lia))))).
Defined.

(** C5. On a valid request to [/rag/chat/completions] the first thing
    written is the waiting message: the event [data: ] with the JSON text
    of a chunk [waiting_msg] that has exactly one choice, whose delta has
    the role [assistant] and as content one of the three filler phrases,
    and whose [finish_reason] is [null]. Nothing is written and neither
    the retrieval nor the upstream call happens before it, and the
    retrieval follows it. [Math.random] is taken to return a number in
    [0, 1). *)
Theorem rag_waiting_message_first E req_body :
  passes_validation req_body = true ->
  (0 <= Math_random E 0)%Q -> (Math_random E 0 < 1)%Q ->
  exists phrase before after choice,
    In phrase ["Just a moment, I'm thinking...";
               "Let me think about that for a second...";
               "Good question, let me find out..."]
    /\ let message := single_choice_chunk "waiting_msg" (assistant_delta (VStr phrase)) in
       waiting_event E = data_event message
       /\ hd_error (body (res (run (rag_chat_completions E req_body))))
          = Some (data_event message)
       /\ trace (run (rag_chat_completions E req_body))
          = (before ++ EvWrite (data_event message)
                       :: EvRetrieval (prop req_body "messages") :: after)%list
       /\ forallb (fun e => negb (is_write e) && negb (is_collaborator_call e)) before = true
       /\ field message "id" = VStr "waiting_msg"
       /\ elements (field message "choices") = [choice]
       /\ field (field choice "delta") "role" = VStr "assistant"
       /\ field (field choice "delta") "content" = VStr phrase
       /\ field choice "finish_reason" = VNull.
Proof.
  intros Hv H0 H1.
  destruct (waiting_phrase _ H0 H1) as (phrase & Hin & Hphrase).
  exists phrase.
  exists (EvLog ("INFO: Received RAG request: " ++ interp (JSON_stringify (VObj req_body)))
          :: sse_header_events).
  assert (Hw : waiting_event E
               = data_event (single_choice_chunk "waiting_msg" (assistant_delta (VStr phrase)))).
  { unfold waiting_event, waiting_content. now rewrite Hphrase. }
  cbv zeta. rewrite <- Hw. unfold run.
  destruct (spread (prop req_body "messages")) as [items|e|] eqn:Hi.
  - destruct (openai_create E (rag_params req_body items)) as [e|chunks failure] eqn:Hu.
    + rewrite (rag_rejects _ _ _ _ Hv Hi Hu). do 2 eexists.
      split; [exact Hin|]. repeat split.
    + rewrite (rag_yields _ _ _ _ _ Hv Hi Hu).
      destruct failure; do 2 eexists;
        (split; [exact Hin|]; split; [reflexivity|]; split; [reflexivity|]; split;
         [cbn [snd trace rag_opening]; rewrite <- app_assoc; reflexivity|]; repeat split).
  - rewrite (rag_not_iterable _ _ _ Hv Hi). do 2 eexists.
    split; [exact Hin|]. repeat split.
  - now apply spread_no_diverge in Hi.
Qed.

(** C5 at a draw of 1/2, which picks the second phrase. *)
Lemma rag_waiting_message_first_witness :
  let E := sample_env (Yields sample_chunks None) in
  exists phrase before after choice,
    In phrase ["Just a moment, I'm thinking...";
               "Let me think about that for a second...";
               "Good question, let me find out..."]
    /\ let message := single_choice_chunk "waiting_msg" (assistant_delta (VStr phrase)) in
       waiting_event E = data_event message
       /\ hd_error (body (res (run (rag_chat_completions E sample_request))))
          = Some (data_event message)
       /\ trace (run (rag_chat_completions E sample_request))
          = (before ++ EvWrite (data_event message)
                       :: EvRetrieval (prop sample_request "messages") :: after)%list
       /\ forallb (fun e => negb (is_write e) && negb (is_collaborator_call e)) before = true
       /\ field message "id" = VStr "waiting_msg"
       /\ elements (field message "choices") = [choice]
       /\ field (field choice "delta") "role" = VStr "assistant"
       /\ field (field choice "delta") "content" = VStr phrase
       /\ field choice "finish_reason" = VNull.
Proof.
  apply (rag_waiting_message_first (sample_env (Yields sample_chunks None)) sample_request).
  - reflexivity.
  - discriminate.
  - reflexivity.
Defined.

(** C6. [refactMessages] on a message list returns one new system message
    whose content embeds the retrieved context, followed by the original
    messages, all of them, unchanged and in their order; the upstream call
    of [/rag/chat/completions] receives exactly this list. *)
Theorem refactMessages_prepends_system_message (context : string) (messages : list value) :
  refactMessages context (VArr messages)
  = Normal (VArr (system_message context :: messages))
  /\ field (system_message context) "role" = VStr "system"
  /\ (exists before after,
        field (system_message context) "content" = VStr (before ++ context ++ after))
  /\ (forall i, nth_error (system_message context :: messages) (S i) = nth_error messages i)
  /\ List.length (system_message context :: messages) = S (List.length messages)
  /\ (forall E req_body,
        passes_validation req_body = true ->
        prop req_body "messages" = VArr messages ->
        field (rag_params req_body messages) "messages"
        = VArr (system_message retrieved :: messages)
        /\ In (EvCreate (rag_params req_body messages))
              (trace (run (rag_chat_completions E req_body)))).
Proof.
  split; [reflexivity|]. split; [reflexivity|]. split.
  { exists "You have access to the following knowledge: ",
      ". Answer questions using this data.". reflexivity. }
  split; [reflexivity|]. split; [reflexivity|].
  intros E req_body Hv Hm. split; [reflexivity|].
  assert (Hi : spread (prop req_body "messages") = Normal messages) by now rewrite Hm.
  unfold run.
  destruct (openai_create E (rag_params req_body messages)) as [e|chunks failure] eqn:Hu.
  - rewrite (rag_rejects _ _ _ _ Hv Hi Hu). cbn [snd trace].
    apply in_or_app. right. now left.
  - rewrite (rag_yields _ _ _ _ _ Hv Hi Hu).
    destruct failure; cbn [snd trace]; apply in_or_app; left;
      apply in_or_app; right; now left.
Qed.

(** C7. When the transcript or the PCM asset cannot be read, a valid
    request to [/audio/chat/completions] is still answered under HTTP 200
    with seven events: the transcript event, whose transcript is the fixed
    text "This is a simulated audio response because actual audio files
    weren't found."; then exactly five filler audio events, each with the
    audio id of the answer and, in base64, 40 bytes drawn from
    [Math.random]; then [data: [DONE]]. No error event is written for the
    missing asset. *)
Theorem audio_falls_back_to_simulation E fuel req_body e :
  passes_validation req_body = true ->
  fs_readFile E "./file.txt" = inl e
  \/ (exists text, fs_readFile E "./file.txt" = inr text)
     /\ fs_readFile E "./file.pcm" = inl e ->
  let U := crypto_randomUUID E in
  let answer := res (run (audio_chat_completions E fuel req_body)) in
  let simulated :=
    "This is a simulated audio response because actual audio files weren't found." in
  List.length (body answer) = 7%nat
  /\ (exists choice,
        let message := single_choice_chunk (U 1%nat) (transcript_delta (U 0%nat) simulated) in
        nth_error (body answer) 0 = Some (data_event message)
        /\ elements (field message "choices") = [choice]
        /\ field (delta_audio choice) "id" = VStr (U 0%nat)
        /\ field (delta_audio choice) "transcript" = VStr simulated)
  /\ (forall k, (k < 5)%nat ->
        exists bytes choice,
          let payload := Buffer.toString_base64 bytes in
          let message := single_choice_chunk (U (2 + k)%nat) (audio_delta (U 0%nat) payload) in
          nth_error (fillers E 0 5) k = Some bytes
          /\ List.length bytes = 40%nat
          /\ nth_error (body answer) (1 + k) = Some (data_event message)
          /\ elements (field message "choices") = [choice]
          /\ field (delta_audio choice) "id" = VStr (U 0%nat)
          /\ field (delta_audio choice) "data" = VStr payload
          /\ Base64.decode payload = Some bytes)
  /\ nth_error (body answer) 6 = Some done_event
  /\ last (body answer) "" = done_event
  /\ (forall e', ~ In (error_event e') (body answer))
  /\ statusCode answer = 200%Z
  /\ headers answer = sse_headers
  /\ finished answer = true
  /\ outcome (audio_chat_completions E fuel req_body) = Normal tt.
Proof.
  intros Hv H U answer simulated.
  destruct (audio_falls_back E fuel req_body e Hv H) as [Ho Hr].
  unfold answer. rewrite Hr. cbn [streamed body statusCode headers finished].
  subst U. set (audio := audio_events E (crypto_randomUUID E 0) 2 (fillers E 0 5)).
  assert (Ha : List.length audio = 5%nat).
  { unfold audio. now rewrite length_audio_events, length_fillers. }
  split; [cbn [List.length]; rewrite length_app, Ha; reflexivity|].
  split; [eexists; repeat split|]. split.
  { intros k Hk.
    destruct (nth_error (fillers E 0 5) k) as [bytes|] eqn:Hn.
    - exists bytes. eexists. cbv zeta. split; [reflexivity|]. split.
      { apply (fillers_40_bytes E 0 5). now apply nth_error_In in Hn. }
      split.
      { cbn [Nat.add nth_error]. rewrite nth_error_app1 by lia.
        unfold audio. now apply nth_audio_events. }
      split; [reflexivity|]. split; [reflexivity|]. split; [reflexivity|].
      apply base64_roundtrip.
    - apply nth_error_None in Hn. rewrite length_fillers in Hn. lia. }
  split.
  { change (nth_error (audio ++ [done_event])%list 5 = Some done_event).
    rewrite nth_error_app2 by lia. now rewrite Ha. }
  split.
  { rewrite app_comm_cons. apply last_last. }
  split; [|now repeat split].
  intros e' [Hin|Hin].
  - symmetry in Hin. now apply error_event_not_transcript in Hin.
  - apply in_app_or in Hin as [Hin|[Hin|[]]].
    + now apply error_event_not_audio in Hin.
    + symmetry in Hin. now apply data_event_not_done in Hin.
Qed.

(** C7 at a disk without the transcript. *)
Lemma audio_falls_back_to_simulation_witness :
  List.length (body (res (run (audio_chat_completions (sample_env (Yields [] None)) 0
                                 sample_request)))) = 7%nat.
Proof.
  exact (proj1 (audio_falls_back_to_simulation (sample_env (Yields [] None)) 0 sample_request
                  ENOENT eq_refl (or_introl eq_refl))).
Defined.



(** C9, on the code: an empty [tools] list is truthy, so it is passed on,
    and [tool_choice] with it; the rest of the upstream request is as the
    claim has it. *)
Theorem empty_tools_are_passed_through (E : env) :
  passes_validation request_with_empty_tools = true
  /\ field (chat_params request_with_empty_tools) "tools" = VArr []
  /\ field (chat_params request_with_empty_tools) "tool_choice" = VStr "auto"
  /\ field (chat_params request_with_empty_tools) "stream" = VBool true
  /\ In (EvCreate (chat_params request_with_empty_tools))
        (trace (run (chat_completions E request_with_empty_tools))).
Proof.
  repeat (split; [reflexivity|]). unfold run.
  destruct (openai_create E (chat_params request_with_empty_tools))
    as [e|chunks failure] eqn:Hu.
  - rewrite (chat_rejects E request_with_empty_tools e eq_refl Hu). cbn [snd trace].
    right. apply in_or_app. right. now left.
  - rewrite (chat_yields E request_with_empty_tools chunks failure eq_refl Hu).
    destruct failure as [e|]; [destruct chunks|]; cbn [snd trace];
      apply in_or_app; left; right; apply in_or_app; right; now left.
Qed.




(** ** Further lemmas on events and traces *)

Lemma error_event_not_done e : error_event e <> done_event.
Proof. apply data_event_not_done. Qed.

Lemma count_done events :
  ~ In done_event events ->
  count_occ string_dec (events ++ [done_event])%list done_event = 1%nat.
Proof.
  intros H. rewrite count_occ_app.
  rewrite (proj1 (count_occ_not_In string_dec events done_event) H).
  cbn. destruct (string_dec done_event done_event); congruence.
Qed.

Lemma done_not_in_data_events chunks : ~ In done_event (map data_event chunks).
Proof.
  intros H. apply in_map_iff in H as (c & Hc & _). now apply data_event_not_done in Hc.
Qed.

Lemma done_not_in_audio_events E audioId first chunks :
  ~ In done_event (audio_events E audioId first chunks).
Proof.
  revert first. induction chunks as [|c chunks IH]; intros first; cbn [audio_events].
  - intros [].
  - intros [H|H]; [now apply data_event_not_done in H|now apply IH in H].
Qed.

Lemma creates_relay_trace label chunks : creates (relay_trace label chunks) = [].
Proof. induction chunks as [|c chunks IH]; [reflexivity|exact IH]. Qed.

Lemma retrievals_relay_trace label chunks : filter is_retrieval (relay_trace label chunks) = [].
Proof. induction chunks as [|c chunks IH]; [reflexivity|exact IH]. Qed.

Lemma spread_iterable v :
  (is_iterable v = true -> exists items, spread v = Normal items)
  /\ (is_iterable v = false -> spread v = Throw not_iterable).
Proof. destruct v; cbn; split; intros H; try discriminate H; eauto. Qed.

Ltac filter_trace :=
  unfold creates, rag_opening, sse_header_events;
  cbn [snd trace app];
  repeat first [ rewrite filter_app
               | rewrite creates_relay_trace
               | rewrite retrievals_relay_trace
               | progress (cbn [filter is_create is_retrieval is_read app]) ];
  try reflexivity.

(** ** Further properties of the three endpoints *)

(** X1. Validation is one decision for the three endpoints: when
    [messages] is falsy (absent, [null], [false], [0], the empty string)
    the answer is HTTP 400 with the detail "Missing messages in request
    body", whatever [stream] is; when [messages] is truthy and [stream],
    after its default, is falsy (a [null] does not take the default) the
    answer is HTTP 400 with "chat completions require streaming"; in every
    other case the handler sets the SSE headers and does not answer 400. *)
Theorem validation_decides E fuel req_body :
  (passes_validation req_body = false ->
   rejected (validation_detail req_body) (run (chat_completions E req_body))
   /\ rejected (validation_detail req_body) (run (rag_chat_completions E req_body))
   /\ rejected (validation_detail req_body) (run (audio_chat_completions E fuel req_body)))
  /\ (passes_validation req_body = true ->
      opens_sse (run (chat_completions E req_body))
      /\ opens_sse (run (rag_chat_completions E req_body))
      /\ opens_sse (run (audio_chat_completions E fuel req_body)))
  /\ validation_detail request_with_nulls = "Missing messages in request body"
  /\ passes_validation [("messages", VArr []); ("stream", VNull)] = false.
Proof.
  split; [|split; [apply valid_request_opens_sse|split; reflexivity]].
  intros Hv. unfold passes_validation in Hv. unfold validation_detail.
  destruct (truthy (prop req_body "messages")) eqn:Hm.
  - now apply reject_without_stream.
  - now apply reject_without_messages.
Qed.

(** X2. A request that fails validation touches nothing but the log and
    the response: no upstream call, no retrieval, no file read, no random
    draw, no identifier drawn. *)
Theorem rejected_request_has_no_effect E fuel req_body :
  passes_validation req_body = false ->
  let quiet (s : state) :=
    forallb (fun e => negb (is_create e || is_retrieval e || is_read e)) (trace s) = true
    /\ randoms s = 0%nat /\ uuids s = 0%nat in
  quiet (run (chat_completions E req_body))
  /\ quiet (run (rag_chat_completions E req_body))
  /\ quiet (run (audio_chat_completions E fuel req_body)).
Proof.
  intros Hv. cbv beta zeta. unfold passes_validation in Hv.
  destruct (truthy (prop req_body "messages")) eqn:Hm.
  - cbn in Hv. go. repeat split; reflexivity.
  - go. repeat split; reflexivity.
Qed.

Lemma rejected_request_has_no_effect_witness :
  forallb (fun e => negb (is_create e || is_retrieval e || is_read e))
    (trace (run (audio_chat_completions sample_audio_env 0 request_with_nulls))) = true.
Proof.
  exact (proj1 (proj2 (proj2
           (rejected_request_has_no_effect sample_audio_env 0 request_with_nulls eq_refl)))).
Defined.

(** X3. On [/rag/chat/completions] a valid request with a message list
    and an upstream stream of N chunks that ends cleanly is answered with
    N + 2 events: the waiting message, the N chunks in arrival order, and
    the sentinel, which is last and occurs once. One random number is
    drawn, for the phrase. *)
Theorem rag_relays_after_waiting_message E req_body messages chunks :
  passes_validation req_body = true ->
  prop req_body "messages" = VArr messages ->
  openai_create E (rag_params req_body messages) = Yields chunks None ->
  let answer := res (run (rag_chat_completions E req_body)) in
  body answer = (waiting_event E :: map data_event chunks ++ [done_event])%list
  /\ List.length (body answer) = (List.length chunks + 2)%nat
  /\ count_occ string_dec (body answer) done_event = 1%nat
  /\ statusCode answer = 200%Z
  /\ headers answer = sse_headers
  /\ finished answer = true
  /\ randoms (run (rag_chat_completions E req_body)) = 1%nat
  /\ outcome (rag_chat_completions E req_body) = Normal tt.
Proof.
  intros Hv Hm Hu.
  assert (Hi : spread (prop req_body "messages") = Normal messages) by now rewrite Hm.
  unfold run, outcome. rewrite (rag_yields _ _ _ _ _ Hv Hi Hu).
  cbn [fst snd res randoms streamed body statusCode headers finished].
  repeat split.
  - cbn [List.length]. rewrite length_app, length_map. cbn. lia.
  - rewrite app_comm_cons. apply count_done.
    intros [H|H]; [now apply data_event_not_done in H|now apply done_not_in_data_events in H].
Qed.

Lemma rag_relays_after_waiting_message_witness :
  List.length (body (res (run (rag_chat_completions (sample_env (Yields sample_chunks None))
                                 sample_request)))) = 4%nat.
Proof.
  exact (proj1 (proj2
           (rag_relays_after_waiting_message (sample_env (Yields sample_chunks None))
              sample_request _ sample_chunks eq_refl eq_refl eq_refl))).
Defined.

(** X4. Whatever the upstream client does, a valid request to
    [/chat/completions] gets a closed answer and the handler returns: it
    is either HTTP 200, and then the last event is the sentinel and the
    sentinel occurs once, or HTTP 500 with a single JSON text, and then no
    SSE event was written. *)
Theorem chat_answer_is_closed E req_body :
  passes_validation req_body = true ->
  let answer := res (run (chat_completions E req_body)) in
  finished answer = true
  /\ outcome (chat_completions E req_body) = Normal tt
  /\ (statusCode answer = 200%Z
      /\ last (body answer) "" = done_event
      /\ count_occ string_dec (body answer) done_event = 1%nat
      \/ statusCode answer = 500%Z
         /\ (exists e, body answer = [detail_body (errorDetail e)])
         /\ filter is_res_write (trace (run (chat_completions E req_body))) = []).
Proof.
  intros Hv. unfold run, outcome.
  destruct (openai_create E (chat_params req_body)) as [e|chunks [e|]] eqn:Hu.
  - rewrite (chat_rejects _ _ _ Hv Hu). cbn [fst snd res failed_before_streaming finished].
    split; [reflexivity|]. split; [reflexivity|]. right.
    split; [reflexivity|]. split; [now exists e|reflexivity].
  - rewrite (chat_yields _ _ _ _ Hv Hu). destruct chunks as [|c chunks].
    + cbn [fst snd res failed_before_streaming finished].
      split; [reflexivity|]. split; [reflexivity|]. right.
      split; [reflexivity|]. split; [now exists e|reflexivity].
    + cbn [fst snd res streamed finished statusCode body].
      split; [reflexivity|]. split; [reflexivity|]. left. split; [reflexivity|].
      change [error_event e; done_event] with ([error_event e] ++ [done_event])%list.
      rewrite app_assoc. split; [apply last_last|]. apply count_done.
      intros H. apply in_app_or in H as [H|[H|[]]].
      * now apply done_not_in_data_events in H.
      * now apply error_event_not_done in H.
  - rewrite (chat_yields _ _ _ _ Hv Hu).
    cbn [fst snd res streamed finished statusCode body].
    split; [reflexivity|]. split; [reflexivity|]. left. split; [reflexivity|].
    split; [apply last_last|]. apply count_done, done_not_in_data_events.
Qed.

Lemma chat_answer_is_closed_witness :
  finished (res (run (chat_completions (sample_env (Yields sample_chunks (Some boom)))
                        sample_request))) = true.
Proof.
  exact (proj1 (chat_answer_is_closed (sample_env (Yields sample_chunks (Some boom)))
                  sample_request eq_refl)).
Defined.

(** X5. Whatever the upstream client does and whatever [messages] holds, a
    valid request to [/rag/chat/completions] is answered under HTTP 200
    with a closed stream whose first event is the waiting message and
    whose last event is the sentinel, which occurs once; the handler
    returns and never answers with HTTP 500. *)
Theorem rag_answer_is_closed E req_body :
  passes_validation req_body = true ->
  let answer := res (run (rag_chat_completions E req_body)) in
  statusCode answer = 200%Z
  /\ headers answer = sse_headers
  /\ finished answer = true
  /\ hd_error (body answer) = Some (waiting_event E)
  /\ last (body answer) "" = done_event
  /\ count_occ string_dec (body answer) done_event = 1%nat
  /\ outcome (rag_chat_completions E req_body) = Normal tt.
Proof.
  intros Hv. unfold run, outcome.
  assert (Hw : waiting_event E <> done_event) by apply data_event_not_done.
  assert (Hshort : forall e,
             last [waiting_event E; error_event e; done_event] "" = done_event
             /\ count_occ string_dec [waiting_event E; error_event e; done_event] done_event
                = 1%nat).
  { intros e. split; [reflexivity|].
    apply (count_done [waiting_event E; error_event e]).
    intros [H|[H|[]]]; [now apply Hw|now apply error_event_not_done in H]. }
  destruct (spread (prop req_body "messages")) as [items|e|] eqn:Hi.
  - destruct (openai_create E (rag_params req_body items)) as [e|chunks [e|]] eqn:Hu.
    + rewrite (rag_rejects _ _ _ _ Hv Hi Hu).
      cbn [fst snd res streamed finished statusCode body headers hd_error].
      destruct (Hshort e). now repeat split.
    + rewrite (rag_yields _ _ _ _ _ Hv Hi Hu).
      cbn [fst snd res streamed finished statusCode body headers hd_error].
      do 4 (split; [reflexivity|]).
      change [error_event e; done_event] with ([error_event e] ++ [done_event])%list.
      rewrite app_assoc, app_comm_cons.
      split; [apply last_last|]. split; [|reflexivity]. apply count_done.
      intros [H|H]; [now apply Hw|]. apply in_app_or in H as [H|[H|[]]].
      * now apply done_not_in_data_events in H.
      * now apply error_event_not_done in H.
    + rewrite (rag_yields _ _ _ _ _ Hv Hi Hu).
      cbn [fst snd res streamed finished statusCode body headers hd_error].
      do 4 (split; [reflexivity|]). rewrite app_comm_cons.
      split; [apply last_last|]. split; [|reflexivity]. apply count_done.
      intros [H|H]; [now apply Hw|now apply done_not_in_data_events in H].
  - rewrite (rag_not_iterable _ _ _ Hv Hi).
    cbn [fst snd res streamed finished statusCode body headers hd_error].
    destruct (Hshort e). now repeat split.
  - now apply spread_no_diverge in Hi.
Qed.

Lemma rag_answer_is_closed_witness :
  statusCode (res (run (rag_chat_completions (sample_env (Rejects boom))
                          request_with_object_messages))) = 200%Z.
Proof.
  exact (proj1 (rag_answer_is_closed (sample_env (Rejects boom))
                  request_with_object_messages eq_refl)).
Defined.



(** X7. On [/rag/chat/completions] a truthy [messages] that is neither a
    list nor a string passes validation and is then refused in band: the
    waiting message, one error event, the sentinel, and no upstream call;
    [/chat/completions] sends the same value upstream as it is. *)
Theorem rag_refuses_unspreadable_messages E req_body :
  passes_validation req_body = true ->
  is_iterable (prop req_body "messages") = false ->
  res (run (rag_chat_completions E req_body))
  = streamed [waiting_event E; error_event not_iterable; done_event]
  /\ creates (trace (run (rag_chat_completions E req_body))) = []
  /\ creates (trace (run (chat_completions E req_body))) = [EvCreate (chat_params req_body)]
  /\ field (chat_params req_body) "messages" = prop req_body "messages".
Proof.
  intros Hv Hn. apply (proj2 (spread_iterable _)) in Hn.
  unfold run. rewrite (rag_not_iterable _ _ _ Hv Hn). cbn [snd res].
  split; [reflexivity|]. split; [filter_trace|]. split; [|reflexivity].
  destruct (openai_create E (chat_params req_body)) as [e|chunks [e|]] eqn:Hu.
  - rewrite (chat_rejects _ _ _ Hv Hu). filter_trace.
  - rewrite (chat_yields _ _ _ _ Hv Hu). destruct chunks; filter_trace.
  - rewrite (chat_yields _ _ _ _ Hv Hu). filter_trace.
Qed.

Lemma rag_refuses_unspreadable_messages_witness :
  creates (trace (run (rag_chat_completions (sample_env (Yields sample_chunks None))
                         request_with_object_messages))) = [].
Proof.
  exact (proj1 (proj2
           (rag_refuses_unspreadable_messages (sample_env (Yields sample_chunks None))
              request_with_object_messages eq_refl eq_refl))).
Defined.

(** ** The trace of [/audio/chat/completions] *)

Lemma audio_streams_trace E fuel req_body text content chunks :
  passes_validation req_body = true ->
  fs_readFile E "./file.txt" = inr text ->
  fs_readFile E "./file.pcm" = inr content ->
  readPCMFile_loop fuel content 1280 0 [] = Normal chunks ->
  let U := crypto_randomUUID E in
  trace (run (audio_chat_completions E fuel req_body))
  = (audio_opening req_body
     ++ [EvReadFile "./file.txt"; EvReadFile "./file.pcm";
         EvWrite (transcript_event (U 1%nat) (U 0%nat) (string_of_list_byte text))]
     ++ audio_closing (audio_events E (U 0%nat) 2 chunks))%list.
Proof.
  intros Hv Ht Hp Hl U. apply passes_validation_inv in Hv as [Hm Hs].
  unfold run. go.
  rewrite chunk_size_handler. cbn [readPCMFile_chunks]. rewrite Hl. exec.
  rewrite for_of_send_audio by reflexivity. unfold after_audio. exec.
  unfold audio_opening, audio_closing, sse_header_events. cbn [app].
  rewrite <- ?app_assoc. reflexivity.
Qed.

Lemma audio_falls_back_trace E fuel req_body e :
  passes_validation req_body = true ->
  fs_readFile E "./file.txt" = inl e
  \/ (exists text, fs_readFile E "./file.txt" = inr text)
     /\ fs_readFile E "./file.pcm" = inl e ->
  let U := crypto_randomUUID E in
  exists reads,
    (reads = [EvReadFile "./file.txt";
              EvLogError "ERROR: Failed to read text file: ./file.txt" e]
     \/ reads = [EvReadFile "./file.txt"; EvReadFile "./file.pcm";
                 EvLogError "ERROR: Failed to read PCM file: ./file.pcm" e])
    /\ trace (run (audio_chat_completions E fuel req_body))
       = (audio_opening req_body ++ reads
          ++ [EvLogError "ERROR: Error reading audio files, using simulated response" e;
              EvWrite (transcript_event (U 1%nat) (U 0%nat) fallback_transcript)]
          ++ audio_closing (audio_events E (U 0%nat) 2 (fillers E 0 5)))%list.
Proof.
  intros Hv H U. apply passes_validation_inv in Hv as [Hm Hs].
  unfold run.
  destruct H as [Ht|[[text Ht] Hp]].
  - exists [EvReadFile "./file.txt";
            EvLogError "ERROR: Failed to read text file: ./file.txt" e].
    split; [now left|].
    go. rewrite (for_of_fillers E _ (seq 0 5)) by reflexivity.
    unfold after_audio. exec.
    unfold audio_opening, audio_closing, sse_header_events. cbn [app].
    rewrite <- ?app_assoc. reflexivity.
  - exists [EvReadFile "./file.txt"; EvReadFile "./file.pcm";
            EvLogError "ERROR: Failed to read PCM file: ./file.pcm" e].
    split; [now right|].
    go. rewrite (for_of_fillers E _ (seq 0 5)) by reflexivity.
    unfold after_audio. exec.
    unfold audio_opening, audio_closing, sse_header_events. cbn [app].
    rewrite <- ?app_assoc. reflexivity.
Qed.

Lemma audio_body_facts E id audioId transcript first chunks :
  let b := (transcript_event id audioId transcript
            :: audio_events E audioId first chunks ++ [done_event])%list in
  last b "" = done_event
  /\ count_occ string_dec b done_event = 1%nat
  /\ forall e, ~ In (error_event e) b.
Proof.
  cbv zeta. rewrite app_comm_cons. split; [apply last_last|]. split.
  - apply count_done. intros [H|H].
    + now apply data_event_not_done in H.
    + now apply done_not_in_audio_events in H.
  - intros e H. apply in_app_or in H as [[H|H]|[H|[]]].
    + symmetry in H. now apply error_event_not_transcript in H.
    + now apply error_event_not_audio in H.
    + symmetry in H. now apply error_event_not_done in H.
Qed.

Lemma audio_closing_calls_nothing events :
  creates (audio_closing events) = []
  /\ filter is_retrieval (audio_closing events) = []
  /\ filter is_read (audio_closing events) = [].
Proof.
  unfold audio_closing, creates. rewrite !filter_app.
  induction events as [|ev events (IH1 & IH2 & IH3)]; [now repeat split|].
  cbn [audio_trace flat_map app filter is_create is_retrieval is_read] in *.
  now repeat split.
Qed.

(** X8. After validation [/audio/chat/completions] cannot fail: whatever
    the file system does, the answer is HTTP 200 and closed, its last
    event is the sentinel, which occurs once, and no error event is in it.
    The upstream client and the retrieval are never called, and every file
    read comes before the first event, so a failed read never follows a
    part of the real asset. The chunking loop needs fuel above the size of
    the asset. *)
Theorem audio_answer_is_closed E fuel req_body :
  passes_validation req_body = true ->
  (forall content,
      fs_readFile E "./file.pcm" = inr content -> (List.length content < fuel)%nat) ->
  let answer := res (run (audio_chat_completions E fuel req_body)) in
  let t := trace (run (audio_chat_completions E fuel req_body)) in
  statusCode answer = 200%Z
  /\ headers answer = sse_headers
  /\ finished answer = true
  /\ last (body answer) "" = done_event
  /\ count_occ string_dec (body answer) done_event = 1%nat
  /\ (forall e, ~ In (error_event e) (body answer))
  /\ creates t = []
  /\ filter is_retrieval t = []
  /\ (exists before after,
        t = (before ++ after)%list
        /\ filter is_res_write before = []
        /\ filter is_read after = [])
  /\ outcome (audio_chat_completions E fuel req_body) = Normal tt.
Proof.
  intros Hv Hfuel answer t. subst answer t.
  assert (Hfall : forall e,
             fs_readFile E "./file.txt" = inl e
             \/ (exists text, fs_readFile E "./file.txt" = inr text)
                /\ fs_readFile E "./file.pcm" = inl e ->
             _) by (intros e H; exact (conj (audio_falls_back E fuel req_body e Hv H)
                                            (audio_falls_back_trace E fuel req_body e Hv H))).
  destruct (fs_readFile E "./file.txt") as [e|text] eqn:Ht;
    [|destruct (fs_readFile E "./file.pcm") as [e|content] eqn:Hp].
  1,2: (destruct (Hfall e) as [[Ho Hr] (reads & Hreads & Htr)];
        [first [now left | right; split; [now exists text|reflexivity]]|];
        cbv zeta in Hr, Htr; rewrite Hr, Htr;
        cbn [streamed statusCode headers finished body];
        destruct (audio_body_facts E (crypto_randomUUID E 1) (crypto_randomUUID E 0)
                    fallback_transcript 2 (fillers E 0 5)) as (Hl & Hc & He);
        destruct (audio_closing_calls_nothing
                    (audio_events E (crypto_randomUUID E 0) 2 (fillers E 0 5)))
          as (C1 & C2 & C3);
        do 3 (split; [reflexivity|]); split; [exact Hl|]; split; [exact Hc|];
        split; [exact He|];
        split; [unfold creates in *; rewrite !filter_app, C1;
                destruct Hreads as [-> | ->]; reflexivity|];
        split; [rewrite !filter_app, C2; destruct Hreads as [-> | ->]; reflexivity|];
        split; [|exact Ho];
        exists (audio_opening req_body ++ reads)%list; eexists;
        split; [rewrite <- app_assoc; reflexivity|];
        split; [destruct Hreads as [-> | ->]; reflexivity|];
        rewrite filter_app, C3; reflexivity).
  clear Hfall.
  assert (Hl : readPCMFile_loop fuel content 1280 0 [] = Normal (pcm_chunks content 1280)).
  { change 1280%Z with (Z.of_nat 1280).
    apply readPCMFile_loop_total; [lia|now apply Hfuel]. }
  destruct (audio_streams E fuel req_body text content _ Hv Ht Hp Hl) as [Ho Hr].
  pose proof (audio_streams_trace E fuel req_body text content _ Hv Ht Hp Hl) as Htr.
  cbv zeta in Hr, Htr. rewrite Hr, Htr.
  cbn [streamed statusCode headers finished body].
  destruct (audio_body_facts E (crypto_randomUUID E 1) (crypto_randomUUID E 0)
              (string_of_list_byte text) 2 (pcm_chunks content 1280)) as (Hl' & Hc & He).
  destruct (audio_closing_calls_nothing
              (audio_events E (crypto_randomUUID E 0) 2 (pcm_chunks content 1280)))
    as (C1 & C2 & C3).
  do 3 (split; [reflexivity|]). split; [exact Hl'|]. split; [exact Hc|].
  split; [exact He|].
  split; [unfold creates in *; rewrite !filter_app, C1; reflexivity|].
  split; [rewrite !filter_app, C2; reflexivity|].
  split; [|exact Ho].
  exists (audio_opening req_body ++ [EvReadFile "./file.txt"; EvReadFile "./file.pcm"])%list.
  eexists. split; [rewrite <- app_assoc; reflexivity|]. split; [reflexivity|].
  cbn [app filter is_read]. exact C3.
Qed.

Lemma audio_answer_is_closed_witness :
  statusCode (res (run (audio_chat_completions sample_audio_env 3001 sample_request)))
  = 200%Z.
Proof.
  refine (proj1 (audio_answer_is_closed sample_audio_env 3001 sample_request eq_refl _)).
  intros content H. vm_compute in H. injection H as <-. vm_compute. lia.
Defined.

(** ** More on chunking *)

Lemma firstn_then_firstn {A} (l : list A) a b :
  (firstn a l ++ firstn b (skipn a l))%list = firstn (a + b) l.
Proof.
  revert l. induction a as [|a IH]; intros l; [reflexivity|].
  destruct l as [|x l]; cbn; [now rewrite firstn_nil|]. now rewrite IH.
Qed.

Lemma concat_pcm_prefix content C k :
  (0 < C)%nat -> (k <= ceil_div (List.length content) C)%nat ->
  List.concat (map (pcm_range content C) (seq 0 k))
  = firstn (Nat.min (k * C) (List.length content)) content.
Proof.
  intros HC. induction k as [|k IH]; intros Hk; [reflexivity|].
  rewrite seq_S, map_app, concat_app, IH by lia. cbn [map List.concat seq Nat.add].
  rewrite app_nil_r.
  assert (Hlt : (k * C < List.length content)%nat) by (apply below_ceil_div; lia).
  unfold pcm_range, byte_range.
  replace (Nat.min (k * C) (List.length content)) with (k * C)%nat by lia.
  rewrite firstn_then_firstn. f_equal. lia.
Qed.

Lemma concat_pcm_chunks content C :
  (0 < C)%nat -> List.concat (pcm_chunks content C) = content.
Proof.
  intros HC. unfold pcm_chunks. rewrite concat_pcm_prefix by lia.
  assert (H : ~ (ceil_div (List.length content) C * C < List.length content)%nat).
  { intros H. apply (below_ceil_div _ _ _ HC) in H. lia. }
  replace (Nat.min _ _) with (List.length content) by lia.
  apply firstn_all.
Qed.

Lemma length_pcm_range content C k :
  (k * C <= List.length content)%nat ->
  List.length (pcm_range content C k)
  = (Nat.min ((k + 1) * C) (List.length content) - k * C)%nat.
Proof.
  intros Hk. unfold pcm_range, byte_range. rewrite length_firstn, length_skipn. lia.
Qed.

(** X9. For a positive chunk size [C] the loop of [readPCMFile] returns
    (on fuel above the size of the file) chunks that put end to end are
    the file: no byte is lost, repeated or reordered. There are
    [ceil(S / C)] chunks, every chunk but the last has exactly [C] bytes
    and the last has between 1 and [C]. *)
Theorem readPCMFile_chunks_partition content C fuel :
  (0 < C)%nat -> (List.length content < fuel)%nat ->
  exists chunks,
    readPCMFile_loop fuel content (Z.of_nat C) 0 [] = Normal chunks
    /\ List.concat chunks = content
    /\ List.length chunks = ceil_div (List.length content) C
    /\ (forall k chunk, nth_error chunks k = Some chunk ->
          (0 < List.length chunk <= C)%nat
          /\ ((S k < List.length chunks)%nat -> List.length chunk = C)).
Proof.
  intros HC Hf. exists (pcm_chunks content C).
  split; [now apply readPCMFile_loop_total|]. split; [now apply concat_pcm_chunks|].
  split; [apply length_pcm_chunks|].
  intros k chunk Hk. rewrite length_pcm_chunks.
  assert (Hlt : (k < ceil_div (List.length content) C)%nat).
  { rewrite <- length_pcm_chunks. apply nth_error_Some. now rewrite Hk. }
  rewrite (nth_pcm_chunks _ _ _ Hlt) in Hk. injection Hk as <-.
  pose proof (proj2 (below_ceil_div _ _ _ HC) Hlt) as Hb.
  rewrite length_pcm_range by lia. split; [lia|].
  intros Hnext. apply (below_ceil_div _ _ _ HC) in Hnext. lia.
Qed.

Lemma readPCMFile_chunks_partition_witness :
  exists chunks,
    readPCMFile_loop 6 (Buffer.from [1; 2; 3; 4; 5]%Z) (Z.of_nat 2) 0 [] = Normal chunks
    /\ List.concat chunks = Buffer.from [1; 2; 3; 4; 5]%Z
    /\ List.length chunks = ceil_div (List.length (Buffer.from [1; 2; 3; 4; 5]%Z)) 2
    /\ (forall k chunk, nth_error chunks k = Some chunk ->
          (0 < List.length chunk <= 2)%nat
          /\ ((S k < List.length chunks)%nat -> List.length chunk = 2%nat)).
Proof.
  apply (readPCMFile_chunks_partition (Buffer.from [1; 2; 3; 4; 5]%Z) 2 6); cbn; lia.
Defined.

(** X10. An empty file gives no chunk, for every chunk size, also zero or
    negative: the loop returns at its first test. The audio endpoint then
    answers with two events, the transcript and the sentinel. *)
Theorem empty_asset_gives_no_chunk E fuel req_body text :
  passes_validation req_body = true ->
  fs_readFile E "./file.txt" = inr text ->
  fs_readFile E "./file.pcm" = inr [] ->
  (forall chunkSize, readPCMFile_loop (S fuel) [] chunkSize 0 [] = Normal [])
  /\ (forall sampleRate durationMs,
        fst (readPCMFile E (S fuel) "./file.pcm" sampleRate durationMs initial) = Normal [])
  /\ body (res (run (audio_chat_completions E (S fuel) req_body)))
     = [transcript_event (crypto_randomUUID E 1) (crypto_randomUUID E 0) (string_of_list_byte text);
        done_event].
Proof.
  intros Hv Ht Hp. split; [reflexivity|]. split.
  - intros sampleRate durationMs. unfold readPCMFile. exec. rewrite Hp. exec.
    destruct (chunk_size sampleRate durationMs) as [c|[]|]; reflexivity.
  - destruct (audio_streams E (S fuel) req_body text [] [] Hv Ht Hp eq_refl) as [_ Hr].
    now rewrite Hr.
Qed.

Lemma empty_asset_gives_no_chunk_witness :
  List.length (body (res (run (audio_chat_completions empty_pcm_env 1 sample_request))))
  = 2%nat.
Proof.
  exact (f_equal (@List.length string)
           (proj2 (proj2 (empty_asset_gives_no_chunk empty_pcm_env 0 sample_request
                            (list_byte_of_string "hello") eq_refl eq_refl eq_refl)))).
Defined.

Lemma readPCMFile_loop_backwards fuel content chunkSize i chunks :
  content <> [] -> (chunkSize <= 0)%Z -> (i <= 0)%Z ->
  readPCMFile_loop fuel content chunkSize i chunks = Diverge.
Proof.
  intros Hc Hs. revert i chunks.
  induction fuel as [|fuel IH]; intros i chunks Hi; [reflexivity|].
  cbn [readPCMFile_loop].
  destruct (Z.ltb_spec i (Z.of_nat (List.length content))) as [_|H].
  - apply IH. lia.
  - destruct content; [congruence|cbn in H; lia].
Qed.

(** X11. A chunk size that is zero or negative, as the doubles compute
    it, makes [readPCMFile] run forever on every file that has a byte:
    the offset never gets past the start, so on no fuel does the call
    return or throw. *)
Theorem readPCMFile_needs_positive_chunk_size E fuel filePath sampleRate durationMs content :
  fs_readFile E filePath = inr content ->
  content <> [] ->
  not_positive (chunk_size sampleRate durationMs) = true ->
  fst (readPCMFile E fuel filePath sampleRate durationMs initial) = Diverge.
Proof.
  intros Hp Hc Hs. unfold readPCMFile. exec. rewrite Hp. exec.
  destruct (chunk_size sampleRate durationMs) as [c|[]|]; cbn in Hs; try discriminate Hs.
  - cbn [readPCMFile_chunks]. rewrite readPCMFile_loop_backwards; [reflexivity|exact Hc|lia|lia].
  - cbn [readPCMFile_chunks]. destruct fuel, content; try reflexivity; congruence.
Qed.

Lemma readPCMFile_needs_positive_chunk_size_witness :
  fst (readPCMFile one_byte_env 1000 "./file.pcm" 10 40 initial) = Diverge
  /\ fst (readPCMFile one_byte_env 1000 "./file.pcm" (-16000) 40 initial) = Diverge.
Proof.
  split.
  - apply (readPCMFile_needs_positive_chunk_size one_byte_env 1000 "./file.pcm" 10 40
             ["001"%byte]); [reflexivity|discriminate|reflexivity].
  - apply (readPCMFile_needs_positive_chunk_size one_byte_env 1000 "./file.pcm" (-16000) 40
             ["001"%byte]); [reflexivity|discriminate|reflexivity].
Defined.

(** ** The text of [JSON.stringify] *)

Lemma value_ind_nested (P : value -> Prop) :
  P VUndefined -> P VNull -> (forall b, P (VBool b)) -> (forall n, P (VNum n)) ->
  (forall s, P (VStr s)) ->
  (forall items, Forall P items -> P (VArr items)) ->
  (forall fields, Forall (fun kv => P (snd kv)) fields -> P (VObj fields)) ->
  forall v, P v.
Proof.
  intros HU HN HB HZ HS HA HO. fix IH 1. intros [| |b|n|s|items|fields].
  - exact HU.
  - exact HN.
  - apply HB.
  - apply HZ.
  - apply HS.
  - apply HA. revert items. fix IHl 1. intros [|x items]; constructor; [apply IH|apply IHl].
  - apply HO. revert fields. fix IHl 1. intros [|[k x] fields]; constructor;
      [apply IH|apply IHl].
Qed.

Lemma stringify_arr items :
  JSON_stringify (VArr items)
  = Some ("[" ++ String.concat "," (map element_text items) ++ "]").
Proof. reflexivity. Qed.

Lemma stringify_obj fields :
  JSON_stringify (VObj fields)
  = Some ("{" ++ String.concat "," (obj_members fields) ++ "}").
Proof. reflexivity. Qed.

Lemma has_line_break_append a b :
  has_line_break (a ++ b) = has_line_break a || has_line_break b.
Proof.
  induction a as [|c a IH]; [reflexivity|].
  change (String c a ++ b) with (String c (a ++ b)). cbn [has_line_break].
  rewrite IH. now rewrite !orb_assoc.
Qed.

Lemma escape_char_no_line_break c : has_line_break (escape_char c) = false.
Proof. destruct c as [[] [] [] [] [] [] [] []]; reflexivity. Qed.

Lemma escape_no_line_break s : has_line_break (escape s) = false.
Proof.
  induction s as [|c s IH]; [reflexivity|].
  cbn [escape]. now rewrite has_line_break_append, escape_char_no_line_break, IH.
Qed.

Lemma quote_no_line_break s : has_line_break (quote s) = false.
Proof.
  unfold quote. cbn [has_line_break].
  rewrite has_line_break_append, escape_no_line_break. reflexivity.
Qed.

Lemma digits_no_line_break d : has_line_break (NilEmpty.string_of_uint d) = false.
Proof. induction d; cbn [NilEmpty.string_of_uint has_line_break]; try reflexivity; exact IHd. Qed.

Lemma number_no_line_break n : has_line_break (number_to_string n) = false.
Proof.
  unfold number_to_string, NilZero.string_of_int, NilZero.string_of_uint.
  destruct (Z.to_int n) as [d|d]; destruct d; try reflexivity;
    cbn [has_line_break]; try apply digits_no_line_break;
    apply (digits_no_line_break (_ d)).
Qed.

Lemma concat_no_line_break l :
  Forall (fun s => has_line_break s = false) l ->
  has_line_break (String.concat "," l) = false.
Proof.
  induction 1 as [|x l Hx Hl IH]; [reflexivity|].
  cbn [String.concat]. destruct l as [|y l]; [exact Hx|].
  rewrite !has_line_break_append, Hx, IH. reflexivity.
Qed.

Lemma stringify_no_line_break v : has_line_break (interp (JSON_stringify v)) = false.
Proof.
  induction v as [| |b|n|s|items IH|fields IH] using value_ind_nested;
    try reflexivity.
  - now destruct b.
  - apply number_no_line_break.
  - apply quote_no_line_break.
  - rewrite stringify_arr. cbn [interp].
    rewrite !has_line_break_append, concat_no_line_break; [reflexivity|].
    induction IH as [|x items Hx _ IHl]; constructor; [|exact IHl].
    unfold element_text. now destruct (JSON_stringify x).
  - rewrite stringify_obj. cbn [interp].
    rewrite !has_line_break_append, concat_no_line_break; [reflexivity|].
    induction IH as [|[k x] fields Hx _ IHl]; [constructor|].
    cbn [obj_members snd] in *. destruct (JSON_stringify x) as [s|]; [|exact IHl].
    constructor; [|exact IHl].
    rewrite !has_line_break_append, quote_no_line_break. exact Hx.
Qed.

Lemma framed_data_event chunk : framed (data_event chunk).
Proof. eexists. split; [reflexivity|]. apply stringify_no_line_break. Qed.

Lemma framed_done_event : framed done_event.
Proof. now exists "[DONE]". Qed.

Lemma framed_data_events chunks : Forall framed (map data_event chunks).
Proof. apply Forall_map, Forall_forall. intros c _. apply framed_data_event. Qed.

(** X12. Every event of a streamed answer of [/chat/completions] and of
    [/rag/chat/completions] is one SSE frame: [data: ], a payload, and a
    blank line, and the payload holds no line feed and no carriage return,
    because [JSON.stringify] escapes them. A chunk whose strings contain
    line breaks cannot split an event. *)
Theorem streamed_events_are_framed E req_body :
  passes_validation req_body = true ->
  (statusCode (res (run (chat_completions E req_body))) = 200%Z ->
   Forall framed (body (res (run (chat_completions E req_body)))))
  /\ Forall framed (body (res (run (rag_chat_completions E req_body))))
  /\ (forall chunk, has_line_break (interp (JSON_stringify chunk)) = false).
Proof.
  intros Hv. split; [|split; [|apply stringify_no_line_break]].
  - unfold run.
    destruct (openai_create E (chat_params req_body)) as [e|chunks [e|]] eqn:Hu.
    + rewrite (chat_rejects _ _ _ Hv Hu). discriminate.
    + rewrite (chat_yields _ _ _ _ Hv Hu). destruct chunks as [|c chunks]; [discriminate|].
      intros _. cbn [snd res streamed body]. apply Forall_app. split.
      * apply framed_data_events.
      * repeat constructor; [apply framed_data_event|apply framed_done_event].
    + rewrite (chat_yields _ _ _ _ Hv Hu). intros _. cbn [snd res streamed body].
      apply Forall_app. split; [apply framed_data_events|].
      repeat constructor. apply framed_done_event.
  - unfold run.
    assert (Hshort : forall e,
               Forall framed [waiting_event E; error_event e; done_event]).
    { intros e. repeat constructor;
        [apply framed_data_event|apply framed_data_event|apply framed_done_event]. }
    destruct (spread (prop req_body "messages")) as [items|e|] eqn:Hi.
    + destruct (openai_create E (rag_params req_body items)) as [e|chunks [e|]] eqn:Hu.
      * rewrite (rag_rejects _ _ _ _ Hv Hi Hu). apply Hshort.
      * rewrite (rag_yields _ _ _ _ _ Hv Hi Hu). cbn [snd res streamed body].
        constructor; [apply framed_data_event|]. apply Forall_app. split.
        -- apply framed_data_events.
        -- repeat constructor; [apply framed_data_event|apply framed_done_event].
      * rewrite (rag_yields _ _ _ _ _ Hv Hi Hu). cbn [snd res streamed body].
        constructor; [apply framed_data_event|]. apply Forall_app. split.
        -- apply framed_data_events.
        -- repeat constructor. apply framed_done_event.
    + rewrite (rag_not_iterable _ _ _ Hv Hi). apply Hshort.
    + now apply spread_no_diverge in Hi.
Qed.

Lemma streamed_events_are_framed_witness :
  Forall framed
    (body (res (run (rag_chat_completions
                       (sample_env (Yields [chunk_with_line_breaks] None)) sample_request)))).
Proof.
  exact (proj1 (proj2
           (streamed_events_are_framed (sample_env (Yields [chunk_with_line_breaks] None))
              sample_request eq_refl))).
Defined.

(** ** The text of a base64 payload *)

Lemma sextet_chars_checked :
  forallb (fun n => let c := Buffer.sextet_char n in
                    (escape_char c =? String c "")%string && is_base64_char c)
          (map N.of_nat (seq 0 65)) = true.
Proof. vm_compute. reflexivity. Qed.

Lemma sextet_char_plain n :
  escape_char (Buffer.sextet_char n) = String (Buffer.sextet_char n) ""
  /\ is_base64_char (Buffer.sextet_char n) = true.
Proof.
  assert (H : exists m, (m <= 64)%N /\ Buffer.sextet_char n = Buffer.sextet_char m).
  { destruct (N.le_gt_cases n 64) as [Hn|Hn]; [now exists n|].
    exists 64%N. split; [lia|]. unfold Buffer.sextet_char.
    rewrite !nth_overflow; [reflexivity|cbn; lia|cbn; lia]. }
  destruct H as (m & Hm & ->).
  pose proof sextet_chars_checked as H. rewrite forallb_forall in H.
  specialize (H m). cbv zeta in H.
  assert (Hin : In m (map N.of_nat (seq 0 65))).
  { apply in_map_iff. exists (N.to_nat m). split; [apply N2Nat.id|]. apply in_seq. lia. }
  apply H in Hin. apply andb_true_iff in Hin as [He Hb].
  apply String.eqb_eq in He. now split.
Qed.

Lemma escape_cons_plain c s :
  escape_char c = String c "" -> escape (String c s) = String c (escape s).
Proof. intros H. cbn [escape]. now rewrite H. Qed.

(** X13. The base64 text of a buffer has [4 * ceil(n / 3)] characters for
    [n] bytes, all of the base64 alphabet or the padding, and
    [JSON.stringify] leaves every one of them as it is: the [data] of an
    audio event is the base64 text between two quotes. *)
Theorem base64_text_is_plain (b : Buffer.t) :
  String.length (Buffer.toString_base64 b) = (4 * ((List.length b + 2) / 3))%nat
  /\ forallb is_base64_char (list_ascii_of_string (Buffer.toString_base64 b)) = true
  /\ escape (Buffer.toString_base64 b) = Buffer.toString_base64 b
  /\ JSON_stringify (VStr (Buffer.toString_base64 b))
     = Some (String dquote (Buffer.toString_base64 b ++ String dquote "")).
Proof.
  assert (H : String.length (Buffer.toString_base64 b) = (4 * ((List.length b + 2) / 3))%nat
              /\ forallb is_base64_char (list_ascii_of_string (Buffer.toString_base64 b)) = true
              /\ escape (Buffer.toString_base64 b) = Buffer.toString_base64 b).
  { induction b as [|x|x y|x y z rest (IHl & IHa & IHe)] using list_ind3.
    - repeat split.
    - cbn [Buffer.toString_base64]. cbv zeta. split; [reflexivity|]. split.
      + cbn [list_ascii_of_string forallb].
        now rewrite !(proj2 (sextet_char_plain _)).
      + rewrite !escape_cons_plain by apply sextet_char_plain. reflexivity.
    - cbn [Buffer.toString_base64]. cbv zeta. split; [reflexivity|]. split.
      + cbn [list_ascii_of_string forallb].
        now rewrite !(proj2 (sextet_char_plain _)).
      + rewrite !escape_cons_plain by apply sextet_char_plain. reflexivity.
    - cbn [Buffer.toString_base64]. cbv zeta. split; [|split].
      + cbn [String.length List.length]. rewrite IHl.
        replace (S (S (S (List.length rest))) + 2)%nat
          with (List.length rest + 2 + 1 * 3)%nat by lia.
        rewrite Nat.div_add by lia. lia.
      + cbn [list_ascii_of_string forallb].
        now rewrite !(proj2 (sextet_char_plain _)), IHa.
      + rewrite !escape_cons_plain by apply sextet_char_plain. now rewrite IHe. }
  destruct H as (Hl & Ha & He). repeat split; try assumption.
  change (JSON_stringify (VStr (Buffer.toString_base64 b)))
    with (Some (quote (Buffer.toString_base64 b))).
  unfold quote. now rewrite He.
Qed.

(** ** What a request can change *)

(** X14. Of a request only [model], [messages], [tools], [tool_choice] and
    [response_format] reach the upstream client: [modalities], [audio] and
    [stream_options] are read and dropped. Two valid requests that agree
    on the five get the same upstream request and the same answer, on
    [/chat/completions] and on [/rag/chat/completions]. *)
Theorem only_five_properties_reach_upstream E b1 b2 :
  passes_validation b1 = true ->
  passes_validation b2 = true ->
  (forall k, In k ["model"; "messages"; "tools"; "tool_choice"; "response_format"] ->
             prop b1 k = prop b2 k) ->
  chat_params b1 = chat_params b2
  /\ field (chat_params b1) "modalities" = VUndefined
  /\ field (chat_params b1) "audio" = VUndefined
  /\ field (chat_params b1) "stream_options" = VUndefined
  /\ res (run (chat_completions E b1)) = res (run (chat_completions E b2))
  /\ res (run (rag_chat_completions E b1)) = res (run (rag_chat_completions E b2)).
Proof.
  intros H1 H2 Hk.
  assert (Hmodel : prop b1 "model" = prop b2 "model") by (apply Hk; cbn; auto).
  assert (Hmsg : prop b1 "messages" = prop b2 "messages") by (apply Hk; cbn; auto).
  assert (Htools : prop b1 "tools" = prop b2 "tools") by (apply Hk; cbn; auto).
  assert (Hchoice : prop b1 "tool_choice" = prop b2 "tool_choice") by (apply Hk; cbn; auto).
  assert (Hfmt : prop b1 "response_format" = prop b2 "response_format")
    by (apply Hk; cbn; auto 6).
  assert (Hp : chat_params b1 = chat_params b2).
  { unfold chat_params. now rewrite Hmodel, Hmsg, Htools, Hchoice, Hfmt. }
  assert (Hr : forall items, rag_params b1 items = rag_params b2 items).
  { intros items. unfold rag_params. now rewrite Hmodel, Htools, Hchoice, Hfmt. }
  split; [exact Hp|]. do 3 (split; [reflexivity|]). split.
  - unfold run.
    destruct (openai_create E (chat_params b1)) as [e|chunks failure] eqn:Hu.
    + rewrite (chat_rejects _ _ _ H1 Hu). rewrite Hp in Hu.
      now rewrite (chat_rejects _ _ _ H2 Hu).
    + rewrite (chat_yields _ _ _ _ H1 Hu). rewrite Hp in Hu.
      rewrite (chat_yields _ _ _ _ H2 Hu). destruct failure, chunks; reflexivity.
  - unfold run.
    destruct (spread (prop b1 "messages")) as [items|e|] eqn:Hi.
    + destruct (openai_create E (rag_params b1 items)) as [e|chunks failure] eqn:Hu.
      * rewrite (rag_rejects _ _ _ _ H1 Hi Hu). rewrite Hmsg in Hi. rewrite Hr in Hu.
        now rewrite (rag_rejects _ _ _ _ H2 Hi Hu).
      * rewrite (rag_yields _ _ _ _ _ H1 Hi Hu). rewrite Hmsg in Hi. rewrite Hr in Hu.
        rewrite (rag_yields _ _ _ _ _ H2 Hi Hu). destruct failure; reflexivity.
    + rewrite (rag_not_iterable _ _ _ H1 Hi). rewrite Hmsg in Hi.
      now rewrite (rag_not_iterable _ _ _ H2 Hi).
    + now apply spread_no_diverge in Hi.
Qed.

Lemma only_five_properties_reach_upstream_witness :
  res (run (chat_completions (sample_env (Yields sample_chunks None))
              (("modalities", VArr [VStr "audio"]) :: sample_request)))
  = res (run (chat_completions (sample_env (Yields sample_chunks None)) sample_request)).
Proof.
  refine (proj1 (proj2 (proj2 (proj2 (proj2
            (only_five_properties_reach_upstream (sample_env (Yields sample_chunks None))
               (("modalities", VArr [VStr "audio"]) :: sample_request) sample_request
               eq_refl eq_refl _)))))).
  intros k Hk. cbn in Hk.
  destruct Hk as [<-|[<-|[<-|[<-|[<-|[]]]]]]; reflexivity.
Defined.

(** X15. [/audio/chat/completions] looks at a request only to validate it:
    with the same files, random numbers and identifiers, any two valid
    requests get the same answer. *)
Theorem audio_ignores_the_request E fuel b1 b2 :
  passes_validation b1 = true ->
  passes_validation b2 = true ->
  res (run (audio_chat_completions E fuel b1)) = res (run (audio_chat_completions E fuel b2))
  /\ outcome (audio_chat_completions E fuel b1) = outcome (audio_chat_completions E fuel b2).
Proof.
  intros H1 H2.
  destruct (fs_readFile E "./file.txt") as [e|text] eqn:Ht.
  { destruct (audio_falls_back E fuel b1 e H1 (or_introl Ht)) as [O1 R1].
    destruct (audio_falls_back E fuel b2 e H2 (or_introl Ht)) as [O2 R2].
    rewrite O1, O2, R1, R2. split; reflexivity. }
  destruct (fs_readFile E "./file.pcm") as [e|content] eqn:Hp.
  { destruct (audio_falls_back E fuel b1 e H1) as [O1 R1];
      [right; split; [now exists text|exact Hp]|].
    destruct (audio_falls_back E fuel b2 e H2) as [O2 R2];
      [right; split; [now exists text|exact Hp]|].
    rewrite O1, O2, R1, R2. split; reflexivity. }
  destruct (readPCMFile_loop fuel content 1280 0 []) as [chunks|e|] eqn:Hl.
  - destruct (audio_streams E fuel b1 text content chunks H1 Ht Hp Hl) as [O1 R1].
    destruct (audio_streams E fuel b2 text content chunks H2 Ht Hp Hl) as [O2 R2].
    rewrite O1, O2, R1, R2. split; reflexivity.
  - now apply readPCMFile_loop_no_throw in Hl.
  - destruct (audio_diverges E fuel b1 text content H1 Ht Hp Hl) as [O1 R1].
    destruct (audio_diverges E fuel b2 text content H2 Ht Hp Hl) as [O2 R2].
    rewrite O1, O2, R1, R2. split; reflexivity.
Qed.

Lemma audio_ignores_the_request_witness :
  res (run (audio_chat_completions sample_audio_env 3001 sample_request))
  = res (run (audio_chat_completions sample_audio_env 3001 request_without_stream)).
Proof.
  exact (proj1 (audio_ignores_the_request sample_audio_env 3001 sample_request
                  request_without_stream eq_refl eq_refl)).
Defined.
